(** * mcp-monitoring: change detection and the three-stage analysis pipeline

    A shallow embedding of [source-checker.ts], [llm-client.ts],
    [agents/api-researcher.ts], [agents/mcp-researcher.ts] and
    [agents/engineer.ts], followed by the properties of the pipeline.

    Conventions.
    - A JavaScript string is the list of its UTF-16 code units ([jsstring]).
    - A plain object used as a dictionary is a [gmap] keyed by [jsstring].
    - Effects (clock, network, analysis service, file system, the client
      singleton) live in a [World]; effectful functions are written in a
      state-and-exception monad over it.
    - [console.log] and [console.error] output is not modelled. *)

From Stdlib Require Import NArith ZArith List Ascii String Lia Bool.
From stdpp Require Import gmap list.

Set Default Proof Using "Type".
Local Open Scope N_scope.

(* ===================================================================== *)
(** ** JavaScript strings *)
(* ===================================================================== *)

Module JS.

(** A string is a sequence of UTF-16 code units. *)
Abbreviation jsstring := (list N).

(** An ASCII literal as a JavaScript string. *)
Fixpoint js (s : string) : jsstring :=
  match s with
  | EmptyString => []
  | String a rest => N_of_ascii a :: js rest
  end.

(** [\d] *)
Definition isDigit (c : N) : bool := (48 <=? c) && (c <=? 57).

(** [\s], which is also the set [String.prototype.trim] strips:
    WhiteSpace (TAB, VT, FF, SP, NBSP, ZWNBSP and category Zs) and
    LineTerminator (LF, CR, LS, PS). *)
Definition isWhiteSpace (c : N) : bool :=
  ((9 <=? c) && (c <=? 13))
  || (c =? 32) || (c =? 160) || (c =? 5760)
  || ((8192 <=? c) && (c <=? 8202))
  || (c =? 8232) || (c =? 8233) || (c =? 8239) || (c =? 8287)
  || (c =? 12288) || (c =? 65279).

(** ASCII case folding, as the [i] flag does for ASCII letters of a
    pattern without the [u] flag. *)
Definition toLowerAscii (c : N) : N :=
  if (65 <=? c) && (c <=? 90) then c + 32 else c.

(** [s.startsWith(p)], optionally ignoring ASCII case. *)
Fixpoint startsWith (eqc : N -> N -> bool) (p s : jsstring) : bool :=
  match p, s with
  | [], _ => true
  | _ :: _, [] => false
  | a :: p', b :: s' => eqc a b && startsWith eqc p' s'
  end.

Definition eqCase (a b : N) : bool := a =? b.
Definition eqNoCase (a b : N) : bool := toLowerAscii a =? toLowerAscii b.

(** [s.replace(/re/g, rep)] for a pattern that never matches the empty
    string.  [matchAt s] is the length of the match of the pattern
    anchored at the start of [s], if there is one.  The scan is the
    regular expression engine's: leftmost match first, then resume right
    after it.  [skip] counts the code units of the current match still to
    be dropped. *)
Fixpoint replaceGo (matchAt : jsstring -> option nat) (rep : jsstring)
         (skip : nat) (s : jsstring) : jsstring :=
  match s with
  | [] => []
  | c :: s' =>
      match skip with
      | S k => replaceGo matchAt rep k s'
      | O =>
          match matchAt s with
          | Some (S len) => rep ++ replaceGo matchAt rep len s'
          | _ => c :: replaceGo matchAt rep O s'
          end
      end
  end.

Definition replaceAll (matchAt : jsstring -> option nat) (rep s : jsstring)
  : jsstring :=
  replaceGo matchAt rep O s.

(** Length of the longest prefix of [s] whose units satisfy [p]. *)
Fixpoint spanLength (p : N -> bool) (s : jsstring) : nat :=
  match s with
  | c :: s' => if p c then S (spanLength p s') else O
  | [] => O
  end.

(** Index of the first position of [s] at which [p] holds of the
    remaining suffix. *)
Fixpoint findSuffix (p : jsstring -> bool) (s : jsstring) : option nat :=
  if p s then Some O
  else match s with
       | [] => None
       | _ :: s' => option_map S (findSuffix p s')
       end.

(** [/\s+/] *)
Definition matchWhiteSpaceRun (s : jsstring) : option nat :=
  match spanLength isWhiteSpace s with
  | O => None
  | n => Some n
  end.

(** [String.prototype.trim] *)
Fixpoint trimStart (s : jsstring) : jsstring :=
  match s with
  | c :: s' => if isWhiteSpace c then trimStart s' else s
  | [] => []
  end.

Definition trimEnd (s : jsstring) : jsstring := rev (trimStart (rev s)).

Definition trim (s : jsstring) : jsstring := trimEnd (trimStart s).

(** [s.slice(0, n)] *)
Definition slicePrefix (n : nat) (s : jsstring) : jsstring := firstn n s.

(** JavaScript truthiness of a string: the empty string is falsy. *)
Definition truthy (s : jsstring) : bool :=
  match s with [] => false | _ => true end.

End JS.
Import JS.

(* ===================================================================== *)
(** ** SHA-256 (FIPS 180-4), as [createHash('sha256')] computes it *)
(* ===================================================================== *)

Module Sha256.

Definition w32 (x : N) : N := N.land x 4294967295.
Definition add32 (x y : N) : N := w32 (x + y).
Definition not32 (x : N) : N := N.lxor (w32 x) 4294967295.
Definition rotr (n x : N) : N :=
  N.lor (N.shiftr x n) (w32 (N.shiftl x (32 - n))).
Definition shr (n x : N) : N := N.shiftr x n.

Definition Ch (x y z : N) : N :=
  N.lxor (N.land x y) (N.land (not32 x) z).
Definition Maj (x y z : N) : N :=
  N.lxor (N.land x y) (N.lxor (N.land x z) (N.land y z)).
Definition Sigma0 (x : N) : N :=
  N.lxor (rotr 2 x) (N.lxor (rotr 13 x) (rotr 22 x)).
Definition Sigma1 (x : N) : N :=
  N.lxor (rotr 6 x) (N.lxor (rotr 11 x) (rotr 25 x)).
Definition sigma0 (x : N) : N :=
  N.lxor (rotr 7 x) (N.lxor (rotr 18 x) (shr 3 x)).
Definition sigma1 (x : N) : N :=
  N.lxor (rotr 17 x) (N.lxor (rotr 19 x) (shr 10 x)).

(** The constants, as FIPS 180-4 defines them (sections 4.2.2 and 5.3.3):
    the first thirty-two bits of the fractional parts of the cube roots of
    the first sixty-four primes, and of the square roots of the first eight
    primes. *)
Definition isPrime (n : nat) : bool :=
  forallb (fun d => negb (n mod d =? 0)%nat) (seq 2 (n - 2)).

Definition firstPrimes (count : nat) : list N :=
  map N.of_nat (firstn count (filter isPrime (seq 2 400))).

(** The integer [k]-th root of [n], built bit by bit from bit [bits - 1]
    down. *)
Fixpoint rootBits (k : N) (bits : nat) (n r : N) : N :=
  match bits with
  | O => r
  | S b =>
      let candidate := r + N.shiftl 1 (N.of_nat b) in
      rootBits k b n (if candidate ^ k <=? n then candidate else r)
  end.

Definition fractionalRootBits (k : N) (p : N) : N :=
  w32 (rootBits k 40 (N.shiftl p (32 * k)) 0).

Definition K : list N :=
  Eval vm_compute in map (fractionalRootBits 3) (firstPrimes 64).

(** The eight working variables, and the chaining value. *)
Record state := mkState {
  sa : N; sb : N; sc : N; sd : N; se : N; sf : N; sg : N; sh : N
}.

Definition stateOfWords (ws : list N) : state :=
  match ws with
  | [a; b; c; d; e; f; g; h] => mkState a b c d e f g h
  | _ => mkState 0 0 0 0 0 0 0 0
  end.

Definition H0 : state :=
  Eval vm_compute in stateOfWords (map (fractionalRootBits 2) (firstPrimes 8)).

(** Big-endian words of a block of bytes. *)
Fixpoint wordsOf (bs : list N) : list N :=
  match bs with
  | b0 :: b1 :: b2 :: b3 :: rest =>
      (N.shiftl b0 24 + N.shiftl b1 16 + N.shiftl b2 8 + b3) :: wordsOf rest
  | _ => []
  end.

(** Message schedule: [n] more words after the sixteen of the block. *)
Fixpoint extend (n : nat) (w : list N) : list N :=
  match n with
  | O => w
  | S n' =>
      let t := length w in
      let at_ i := nth (t - i) w 0 in
      extend n' (w ++ [add32 (add32 (sigma1 (at_ 2%nat)) (at_ 7%nat))
                             (add32 (sigma0 (at_ 15%nat)) (at_ 16%nat))])
  end.

Definition round (s : state) (kw : N * N) : state :=
  let t1 := add32 (add32 (add32 (sh s) (Sigma1 (se s)))
                         (add32 (Ch (se s) (sf s) (sg s)) (fst kw)))
                  (snd kw) in
  let t2 := add32 (Sigma0 (sa s)) (Maj (sa s) (sb s) (sc s)) in
  mkState (add32 t1 t2) (sa s) (sb s) (sc s)
          (add32 (sd s) t1) (se s) (sf s) (sg s).

Definition compress (h : state) (block : list N) : state :=
  let w := extend 48 (wordsOf block) in
  let s := fold_left round (combine K w) h in
  mkState (add32 (sa h) (sa s)) (add32 (sb h) (sb s))
          (add32 (sc h) (sc s)) (add32 (sd h) (sd s))
          (add32 (se h) (se s)) (add32 (sf h) (sf s))
          (add32 (sg h) (sg s)) (add32 (sh h) (sh s)).

(** Padding: a one bit, zeros up to 56 modulo 64, the bit length on
    eight bytes. *)
Definition bytesBE (n : nat) (x : N) : list N :=
  map (fun i => N.land (N.shiftr x (8 * N.of_nat i)) 255) (rev (seq 0 n)).

Definition pad (msg : list N) : list N :=
  let len := length msg in
  let zeros := ((64 - (len + 9) mod 64) mod 64)%nat in
  msg ++ [128] ++ repeat 0 zeros ++ bytesBE 8 (8 * N.of_nat len).

Fixpoint blocks (fuel : nat) (h : state) (bs : list N) : state :=
  match fuel, bs with
  | S fuel', _ :: _ => blocks fuel' (compress h (firstn 64 bs)) (skipn 64 bs)
  | _, _ => h
  end.

Definition hexDigit (x : N) : N :=
  let d := N.land x 15 in if d <? 10 then 48 + d else 87 + d.

Definition hex32 (x : N) : jsstring :=
  [ hexDigit (N.shiftr x 28); hexDigit (N.shiftr x 24);
    hexDigit (N.shiftr x 20); hexDigit (N.shiftr x 16);
    hexDigit (N.shiftr x 12); hexDigit (N.shiftr x 8);
    hexDigit (N.shiftr x 4); hexDigit x ].

Definition hexOfState (s : state) : jsstring :=
  hex32 (sa s) ++ hex32 (sb s) ++ hex32 (sc s) ++ hex32 (sd s) ++
  hex32 (se s) ++ hex32 (sf s) ++ hex32 (sg s) ++ hex32 (sh s).

(** UTF-8 encoding of a JavaScript string, as [hash.update(string)]
    performs it: a surrogate pair is one code point, a lone surrogate is
    replaced by U+FFFD. *)
Definition isHighSurrogate (c : N) : bool := (0xD800 <=? c) && (c <? 0xDC00).
Definition isLowSurrogate (c : N) : bool := (0xDC00 <=? c) && (c <? 0xE000).
Definition cont (x : N) : N := N.lor 128 (N.land x 63).

Definition utf8CodePoint (cp : N) : list N :=
  if cp <? 0x80 then [cp]
  else if cp <? 0x800 then [N.lor 0xC0 (N.shiftr cp 6); cont cp]
  else if cp <? 0x10000 then
    [N.lor 0xE0 (N.shiftr cp 12); cont (N.shiftr cp 6); cont cp]
  else
    [N.lor 0xF0 (N.shiftr cp 18); cont (N.shiftr cp 12);
     cont (N.shiftr cp 6); cont cp].

Fixpoint utf8 (s : jsstring) : list N :=
  match s with
  | [] => []
  | c :: rest =>
      if isHighSurrogate c then
        match rest with
        | d :: rest' =>
            if isLowSurrogate d
            then utf8CodePoint (0x10000 + N.shiftl (c - 0xD800) 10 + (d - 0xDC00))
                   ++ utf8 rest'
            else utf8CodePoint 0xFFFD ++ utf8 rest
        | [] => utf8CodePoint 0xFFFD
        end
      else if isLowSurrogate c then utf8CodePoint 0xFFFD ++ utf8 rest
      else utf8CodePoint c ++ utf8 rest
  end.

(** [createHash('sha256').update(s).digest('hex')] *)
Definition digestHex (s : jsstring) : jsstring :=
  let padded := pad (utf8 s) in
  hexOfState (blocks (length padded) H0 padded).

End Sha256.


(* ===================================================================== *)
(** ** Data model: the interfaces of the source files *)
(* ===================================================================== *)

(** An ISO date string as [toISOString] writes it, by the instant it
    denotes; a state file may hold any other string in its place, which
    [new Date(s).getTime()] reads as [NaN]. *)
Inductive DateString :=
| ISO (ms : Z)
| NotADate (s : jsstring).

(** [types.ts] *)
Inductive ImpactLevel := high | medium | low.

(** [discovery.ts] *)
Record UpstreamApi := mkUpstreamApi {
  api_name : jsstring;
  api_baseUrl : jsstring;
  api_source : jsstring
}.

Record McpInfo := mkMcpInfo {
  mi_name : jsstring;
  mi_path : jsstring;
  mi_useCase : jsstring;
  mi_targetAudience : jsstring;
  mi_tools : list jsstring;
  mi_upstreamApis : list UpstreamApi
}.

(** [agents/api-researcher.ts] *)
Inductive ChangeType := deprecation | breaking | new_feature | maintenance | unknown.

Record ApiChange := mkApiChange {
  ac_title : jsstring;
  ac_summary : jsstring;
  ac_type : ChangeType;
  ac_relevance : ImpactLevel;
  ac_sourceUrl : jsstring;
  ac_date : option jsstring
}.

Record ApiResearcherOutput := mkApiResearcherOutput {
  aro_provider : jsstring;
  aro_changes : list ApiChange;
  aro_noChangesDetected : bool
}.

(** [agents/mcp-researcher.ts] *)
Record McpDependency := mkMcpDependency {
  dep_api : jsstring;
  dep_endpoints : list jsstring;
  dep_critical : bool
}.

Record McpResearcherOutput := mkMcpResearcherOutput {
  mro_mcp : jsstring;
  mro_uses : list McpDependency;
  mro_purpose : jsstring
}.

Record CacheEntry := mkCacheEntry {
  ce_data : McpResearcherOutput;
  ce_timestamp : DateString
}.

Abbreviation McpResearcherCache := (gmap jsstring CacheEntry).

Definition CACHE_DURATION_DAYS : Z := 30.

(** [agents/engineer.ts] *)
Inductive ActionType := notify | urgent | none.

Record EngineerDetail := mkEngineerDetail {
  ed_mcp : jsstring;
  ed_changes : list jsstring;
  ed_impact : ImpactLevel
}.

Record EngineerOutput := mkEngineerOutput {
  eo_action : ActionType;
  eo_summary : jsstring;
  eo_affectedMcps : list jsstring;
  eo_recommendedAction : jsstring;
  eo_details : list EngineerDetail
}.

(** [source-checker.ts] *)
Record WebPageEntry := mkWebPageEntry {
  wp_url : jsstring;
  wp_description : jsstring
}.

(** The value stored under a URL in a [SourceCheckState]. *)
Record PageState := mkPageState {
  ps_hash : jsstring;
  ps_lastChecked : DateString;
  ps_status : N
}.

Abbreviation SourceCheckState := (gmap jsstring PageState).

Record CheckState := mkCheckState {
  cs_sources : gmap jsstring (gmap jsstring PageState);
  cs_mcpCache : option (gmap jsstring CacheEntry);
  cs_lastCheck : option DateString
}.

Inductive SourceChangeType := new | modified | unavailable.

Record SourceChange := mkSourceChange {
  sc_apiKey : jsstring;
  sc_apiName : jsstring;
  sc_url : jsstring;
  sc_description : jsstring;
  sc_changeType : SourceChangeType;
  sc_content : option jsstring;
  sc_previousHash : option jsstring;
  sc_currentHash : option jsstring;
  sc_previousStatus : option N;
  sc_currentStatus : option N
}.

Definition TIMEOUT_MS : Z := 30000.

(** [llm-client.ts] *)
Record Usage := mkUsage {
  inputTokens : N;
  outputTokens : N
}.

Record LLMResponse (T : Type) := mkLLMResponse {
  success : bool;
  data : option T;
  error : option jsstring;
  usage : option Usage
}.
Arguments mkLLMResponse {T}.
Arguments success {T}.
Arguments data {T}.
Arguments error {T}.
Arguments usage {T}.

(** [JSON.parse(text) as T]: the parsed value at the type the source casts
    it to, or the message of the [SyntaxError] it throws.  [JSON.stringify]
    with an indentation of two. *)
Class FromJSON (T : Type) := JSON_parse : jsstring -> jsstring + T.
Class ToJSON (T : Type) := JSON_stringify : T -> jsstring.

(* ===================================================================== *)
(** ** The world outside the program, and the monad of effects *)
(* ===================================================================== *)

(** A value thrown by a failing operation: an [Error] with its message, or
    anything else. *)
Inductive Thrown :=
| ErrorObject (message : jsstring)
| OtherValue.

(** What [fetch(url)] followed by [response.text()] gives: the request
    rejects (DNS, transport, the abort of the timeout), or a response
    arrives with its status and a body that may still fail to be read. *)
Inductive FetchResult :=
| FetchRejects (e : Thrown)
| FetchResolves (status : N) (text : Thrown + jsstring).

(** What [anthropic.messages.create] gives. *)
Inductive ContentBlock :=
| TextBlock (text : jsstring)
| OtherBlock.

Inductive ApiResult :=
| ApiRejects (e : Thrown)
| ApiResolves (content : list ContentBlock) (input_tokens output_tokens : N).

(** A request to the analysis service, by the agent that issues it (which
    fixes the system prompt) and the values its user message interpolates. *)
Inductive Request :=
| ApiResearcherRequest (provider pageUrl pageContent : jsstring)
| McpResearcherRequest (mcpInfo : McpInfo)
| EngineerRequest (apiChanges : list ApiResearcherOutput)
                  (mcpDependencies : list McpResearcherOutput).

Record World := mkWorld {
  (** [process.env.ANTHROPIC_API_KEY] *)
  env_ANTHROPIC_API_KEY : option jsstring;
  (** the module variable [client] of llm-client.ts is set *)
  client : bool;
  (** the clock: its successive readings, and how many were taken *)
  clock : nat -> Z;
  clockReads : nat;
  (** the network: what the n-th fetch of a URL gives *)
  network : nat -> jsstring -> FetchResult;
  fetches : list jsstring;
  (** the analysis service: what its n-th call gives, and the calls made *)
  service : nat -> ApiResult;
  serviceCalls : list Request;
  (** the file system: the content of each existing file *)
  files : gmap jsstring jsstring
}.

Definition setClient (b : bool) (w : World) : World :=
  mkWorld (env_ANTHROPIC_API_KEY w) b (clock w) (clockReads w)
          (network w) (fetches w) (service w) (serviceCalls w) (files w).
Definition tickClock (w : World) : World :=
  mkWorld (env_ANTHROPIC_API_KEY w) (client w) (clock w) (S (clockReads w))
          (network w) (fetches w) (service w) (serviceCalls w) (files w).
Definition logFetch (url : jsstring) (w : World) : World :=
  mkWorld (env_ANTHROPIC_API_KEY w) (client w) (clock w) (clockReads w)
          (network w) (fetches w ++ [url]) (service w) (serviceCalls w) (files w).
Definition logServiceCall (r : Request) (w : World) : World :=
  mkWorld (env_ANTHROPIC_API_KEY w) (client w) (clock w) (clockReads w)
          (network w) (fetches w) (service w) (serviceCalls w ++ [r]) (files w).
Definition setFiles (f : gmap jsstring jsstring) (w : World) : World :=
  mkWorld (env_ANTHROPIC_API_KEY w) (client w) (clock w) (clockReads w)
          (network w) (fetches w) (service w) (serviceCalls w) f.

(** The result of running an effectful function: it returns or it throws,
    and either way leaves a world behind. *)
Inductive Outcome (A : Type) :=
| Returns (a : A) (w : World)
| Throws (e : Thrown) (w : World).
Arguments Returns {A}.
Arguments Throws {A}.

Definition M (A : Type) : Type := World -> Outcome A.

Definition ret {A} (a : A) : M A := fun w => Returns a w.

Definition bind {A B} (m : M A) (k : A -> M B) : M B :=
  fun w => match m w with
           | Returns a w' => k a w'
           | Throws e w' => Throws e w'
           end.

Definition throw {A} (e : Thrown) : M A := fun w => Throws e w.

(** [try { body } catch (e) { handler(e) }] *)
Definition tryCatch {A} (body : M A) (handler : Thrown -> M A) : M A :=
  fun w => match body w with
           | Returns a w' => Returns a w'
           | Throws e w' => handler e w'
           end.

Notation "x <- m ;; k" := (bind m (fun x => k))
  (at level 100, m at next level, right associativity,
   format "'[v' x  <-  m  ;;  '/' k ']'").

(** [Date.now()], and the instant of [new Date()]. *)
Definition Date_now : M Z :=
  fun w => Returns (clock w (clockReads w)) (tickClock w).

(** [new Date().toISOString()] *)
Definition newDateISO : M DateString :=
  t <- Date_now ;; ret (ISO t).

(** [new Date(s).getTime()]; [None] is [NaN]. *)
Definition getTime (s : DateString) : option Z :=
  match s with
  | ISO ms => Some ms
  | NotADate _ => None
  end.

(** [await fetch(url, ...)] then [await response.text()], leaving the
    status and the text, or throwing. *)
Definition fetchText (url : jsstring) : M (N * jsstring) :=
  fun w =>
    let w' := logFetch url w in
    match network w (length (fetches w)) url with
    | FetchRejects e => Throws e w'
    | FetchResolves status (inl e) => Throws e w'
    | FetchResolves status (inr body) => Returns (status, body) w'
    end.

(** [await anthropic.messages.create(...)] *)
Definition messagesCreate (r : Request) : M (list ContentBlock * Usage) :=
  fun w =>
    let w' := logServiceCall r w in
    match service w (length (serviceCalls w)) with
    | ApiRejects e => Throws e w'
    | ApiResolves content i o => Returns (content, mkUsage i o) w'
    end.

(** [await readFile(path, 'utf-8')] *)
Definition readFile (path : jsstring) : M jsstring :=
  fun w => match files w !! path with
           | Some content => Returns content w
           | None => Throws (ErrorObject (js "ENOENT: no such file or directory")) w
           end.

(** How far a [writeFile] got.  [fs.writeFile(path, data)] opens [path]
    with flag [w], which creates the file or truncates it to nothing, and
    then writes [data] from its start; it neither writes to another file nor
    renames one.  [Written n]: the file was opened and [n] code units of
    [data] reached it. *)
Inductive WriteProgress :=
| NotOpened
| Written (n : nat).

Definition writeFileUpTo (p : WriteProgress) (path data : jsstring)
           (f : gmap jsstring jsstring) : gmap jsstring jsstring :=
  match p with
  | NotOpened => f
  | Written n => <[path := firstn n data]> f
  end.

(** [await writeFile(path, data)], run to its end. *)
Definition writeFile (path data : jsstring) : M unit :=
  fun w => Returns tt
             (setFiles (writeFileUpTo (Written (length data)) path data (files w)) w).

(* ===================================================================== *)
(** ** llm-client.ts *)
(* ===================================================================== *)

(** [!!process.env.ANTHROPIC_API_KEY] *)
Definition isConfigured (w : World) : bool :=
  match env_ANTHROPIC_API_KEY w with
  | Some key => truthy key
  | None => false
  end.

Definition getClient : M unit :=
  fun w =>
    if client w then Returns tt w
    else if isConfigured w then Returns tt (setClient true w)
    else Throws (ErrorObject
                   (js "ANTHROPIC_API_KEY environment variable is required")) w.

Fixpoint indexOf (c : N) (s : jsstring) : option nat :=
  match s with
  | [] => None
  | x :: s' => if x =? c then Some O else option_map S (indexOf c s')
  end.

Definition lastIndexOf (c : N) (s : jsstring) : option nat :=
  option_map (fun i => (length s - 1 - i)%nat) (indexOf c (rev s)).

(** [text.match(/\{[\s\S]*\}/)]: from the first opening brace to the last
    closing brace after it. *)
Definition matchJsonObject (text : jsstring) : option jsstring :=
  match indexOf 123 text with
  | None => None
  | Some i =>
      let rest := skipn (S i) text in
      match lastIndexOf 125 rest with
      | None => None
      | Some j => Some (123 :: firstn (S j) rest)
      end
  end.

Definition findTextBlock (content : list ContentBlock) : option jsstring :=
  match List.find (fun b => match b with TextBlock _ => true | OtherBlock => false end)
                  content with
  | Some (TextBlock text) => Some text
  | _ => None
  end.

Definition callLLM {T : Type} `{FromJSON T} (request : Request) : M (LLMResponse T) :=
  _ <- getClient ;;
  tryCatch
    (response <- messagesCreate request ;;
     match findTextBlock (fst response) with
     | None =>
         ret (mkLLMResponse false None
                (Some (js "No text content in response")) None)
     | Some text =>
         match matchJsonObject text with
         | None =>
             ret (mkLLMResponse false None
                    (Some (js "No JSON found in response")) None)
         | Some jsonMatch =>
             match JSON_parse jsonMatch with
             | inl message => throw (ErrorObject message)
             | inr d => ret (mkLLMResponse true (Some d) None (Some (snd response)))
             end
         end
     end)
    (fun e =>
       let message := match e with
                      | ErrorObject m => m
                      | OtherValue => js "Unknown error"
                      end in
       ret (mkLLMResponse false None (Some message) None)).

(** The failures of a call of the analysis service, read off what the
    service gave: the call rejects (transport error), the response has no
    text block (no result), the text holds no braces (not JSON), or
    [JSON.parse] rejects what the braces enclose (malformed). *)
Definition serviceFails (T : Type) `{FromJSON T} (r : ApiResult) : bool :=
  match r with
  | ApiRejects _ => true
  | ApiResolves content _ _ =>
      match findTextBlock content with
      | None => true
      | Some text =>
          match matchJsonObject text with
          | None => true
          | Some jsonMatch =>
              match JSON_parse jsonMatch with
              | inl _ => true
              | inr _ => false
              end
          end
      end
  end.

(** What the service's reply parses to, when the call does not fail. *)
Definition parsedReply (T : Type) `{FromJSON T} (r : ApiResult) : option T :=
  match r with
  | ApiRejects _ => None
  | ApiResolves content _ _ =>
      match findTextBlock content with
      | None => None
      | Some text =>
          match matchJsonObject text with
          | None => None
          | Some jsonMatch =>
              match JSON_parse jsonMatch with
              | inl _ => None
              | inr d => Some d
              end
          end
      end
  end.

(** A client exists or can be created: [getClient] does not throw. *)
Definition clientAvailable (w : World) : bool := client w || isConfigured w.

(** [!response.success || !response.data] *)
Definition failed {T : Type} (response : LLMResponse T) : bool :=
  negb (success response) || match data response with Some _ => false | None => true end.

(* ===================================================================== *)
(** ** source-checker.ts *)
(* ===================================================================== *)

(** One unit of the timestamp pattern: a digit or a literal. *)
Inductive PatternUnit :=
| Digit
| Lit (c : N).

Definition matchUnit (u : PatternUnit) (c : N) : bool :=
  match u with
  | Digit => isDigit c
  | Lit l => c =? l
  end.

Fixpoint matchUnits (p : list PatternUnit) (s : jsstring) : bool :=
  match p, s with
  | [], _ => true
  | _ :: _, [] => false
  | u :: p', c :: s' => matchUnit u c && matchUnits p' s'
  end.

(** [/\d{4}-\d{2}-\d{2}T\d{2}:\d{2}:\d{2}/] *)
Definition timestampPattern : list PatternUnit :=
  [ Digit; Digit; Digit; Digit; Lit 45; Digit; Digit; Lit 45; Digit; Digit;
    Lit 84; Digit; Digit; Lit 58; Digit; Digit; Lit 58; Digit; Digit ].

Definition matchTimestamp (s : jsstring) : option nat :=
  if matchUnits timestampPattern s then Some (length timestampPattern) else None.

(** The text that is hashed. *)
Definition normalizeForHash (content : jsstring) : jsstring :=
  trim (replaceAll matchTimestamp (js "[timestamp]")
          (replaceAll matchWhiteSpaceRun (js " ") content)).

Definition hashContent (content : jsstring) : jsstring :=
  slicePrefix 16 (Sha256.digestHex (normalizeForHash content)).

(** The text starts with [>]. *)
Definition isGt (s : jsstring) : bool :=
  match s with c :: _ => c =? 62 | [] => false end.

(** [/<name[^>]*>[\s\S]*?<\/name>/i]: the opening tag up to its first [>],
    then up to the first closing tag. *)
Definition matchElement (name : jsstring) (s : jsstring) : option nat :=
  if startsWith eqNoCase (60 :: name) s then
    let after := skipn (S (length name)) s in
    match findSuffix isGt after with
    | None => None
    | Some i =>
        let closing := js "</" ++ name ++ js ">" in
        match findSuffix (startsWith eqNoCase closing) (skipn (S i) after) with
        | None => None
        | Some j => Some (S (length name) + S i + j + length closing)%nat
        end
    end
  else None.

(** [/<[^>]+>/] *)
Definition matchTag (s : jsstring) : option nat :=
  match s with
  | 60 :: rest =>
      match spanLength (fun c => negb (c =? 62)) rest with
      | O => None
      | n => if isGt (skipn n rest) then Some (S (S n)) else None
      end
  | _ => None
  end.

(** [/literal/] *)
Definition matchLiteral (l : jsstring) (s : jsstring) : option nat :=
  if startsWith eqCase l s then Some (length l) else None.

Definition extractTextContent (html : jsstring) : jsstring :=
  let text := replaceAll (matchElement (js "script")) [] html in
  let text := replaceAll (matchElement (js "style")) [] text in
  let text := replaceAll matchTag (js " ") text in
  let text := replaceAll (matchLiteral (js "&nbsp;")) (js " ") text in
  let text := replaceAll (matchLiteral (js "&amp;")) (js "&") text in
  let text := replaceAll (matchLiteral (js "&lt;")) (js "<") text in
  let text := replaceAll (matchLiteral (js "&gt;")) (js ">") text in
  let text := replaceAll (matchLiteral (js "&quot;")) [34] text in
  trim (replaceAll matchWhiteSpaceRun (js " ") text).

Definition emptyCheckState : CheckState := mkCheckState ∅ None None.

Definition loadCheckState `{FromJSON CheckState} (statePath : jsstring) : M CheckState :=
  tryCatch
    (content <- readFile statePath ;;
     match JSON_parse content with
     | inl message => throw (ErrorObject message)
     | inr state => ret state
     end)
    (fun _ => ret emptyCheckState).

Definition saveCheckState `{ToJSON CheckState} (statePath : jsstring) (state : CheckState)
  : M unit :=
  writeFile statePath (JSON_stringify state).


(** [checkSingleSource] updates the object [sourceState] in place; here it
    returns the updated object beside its result. *)
Definition checkSingleSource (apiKey apiName : jsstring) (pageEntry : WebPageEntry)
           (sourceState : SourceCheckState)
  : M (option SourceChange * SourceCheckState) :=
  let url := wp_url pageEntry in
  let description := wp_description pageEntry in
  let previousCheck := sourceState !! url in
  tryCatch
    (response <- fetchText url ;;
     let status := fst response in
     let content := snd response in
     let hash := hashContent content in
     let textContent := extractTextContent content in
     lastChecked <- newDateISO ;;
     let sourceState' := <[url := mkPageState hash lastChecked status]> sourceState in
     match previousCheck with
     | None =>
         ret (Some (mkSourceChange apiKey apiName url description new
                      (Some textContent) None (Some hash) None (Some status)),
              sourceState')
     | Some previous =>
         if negb (bool_decide (ps_hash previous = hash)) then
           ret (Some (mkSourceChange apiKey apiName url description modified
                        (Some textContent) (Some (ps_hash previous)) (Some hash)
                        (Some (ps_status previous)) (Some status)),
                sourceState')
         else ret (None, sourceState')
     end)
    (fun _ =>
       lastChecked <- newDateISO ;;
       let sourceState' := <[url := mkPageState [] lastChecked 0]> sourceState in
       match previousCheck with
       | Some previous =>
           if negb (ps_status previous =? 0) then
             ret (Some (mkSourceChange apiKey apiName url description unavailable
                          None None None (Some (ps_status previous)) (Some 0)),
                  sourceState')
           else ret (None, sourceState')
       | None => ret (None, sourceState')
       end).

(* ===================================================================== *)
(** ** agents/api-researcher.ts *)
(* ===================================================================== *)

(** An element of the [pages] argument of [analyzeProviderPages]. *)
Record Page := mkPage {
  pg_url : jsstring;
  pg_content : jsstring
}.

Definition emptyApiResearcherOutput (provider : jsstring) : ApiResearcherOutput :=
  mkApiResearcherOutput provider [] true.

Definition analyzeApiChanges `{FromJSON ApiResearcherOutput}
           (provider pageUrl pageContent : jsstring) : M ApiResearcherOutput :=
  response <- callLLM (ApiResearcherRequest provider pageUrl
                         (slicePrefix (N.to_nat 15000) pageContent)) ;;
  if failed response then ret (emptyApiResearcherOutput provider)
  else
    match data response with
    | None => ret (emptyApiResearcherOutput provider)
    | Some d =>
        let changes :=
          map (fun change =>
                 mkApiChange (ac_title change) (ac_summary change) (ac_type change)
                   (ac_relevance change)
                   (if truthy (ac_sourceUrl change) then ac_sourceUrl change
                    else pageUrl)
                   (ac_date change))
              (aro_changes d) in
        ret (mkApiResearcherOutput provider changes
               (aro_noChangesDetected d || (length changes =? 0)%nat))
    end.

(** [self.findIndex(p)]; [None] stands for [-1]. *)
Fixpoint findIndex {A : Type} (p : A -> bool) (self : list A) : option nat :=
  match self with
  | [] => None
  | x :: rest => if p x then Some O else option_map S (findIndex p rest)
  end.

(** [self.filter((x, index) => p x index)], from position [index] on. *)
Fixpoint filterFrom {A : Type} (p : A -> nat -> bool) (index : nat) (l : list A)
  : list A :=
  match l with
  | [] => []
  | x :: rest =>
      if p x index then x :: filterFrom p (S index) rest
      else filterFrom p (S index) rest
  end.

Definition filterIndexed {A : Type} (p : A -> nat -> bool) (l : list A) : list A :=
  filterFrom p O l.

(** The loop of [analyzeProviderPages] over the pages not yet analysed. *)
Fixpoint analyzePagesFrom `{FromJSON ApiResearcherOutput} (provider : jsstring)
         (pages : list Page) (allChanges : list ApiChange) : M (list ApiChange) :=
  match pages with
  | [] => ret allChanges
  | page :: rest =>
      result <- analyzeApiChanges provider (pg_url page) (pg_content page) ;;
      analyzePagesFrom provider rest (allChanges ++ aro_changes result)
  end.

Definition sameTitle (a b : ApiChange) : bool :=
  bool_decide (ac_title a = ac_title b).

Definition uniqueByTitle (allChanges : list ApiChange) : list ApiChange :=
  filterIndexed
    (fun change index =>
       bool_decide (Some index = findIndex (fun c => sameTitle c change) allChanges))
    allChanges.

Definition analyzeProviderPages `{FromJSON ApiResearcherOutput}
           (provider : jsstring) (pages : list Page) : M ApiResearcherOutput :=
  allChanges <- analyzePagesFrom provider pages [] ;;
  let uniqueChanges := uniqueByTitle allChanges in
  ret (mkApiResearcherOutput provider uniqueChanges
         (length uniqueChanges =? 0)%nat).



(* ===================================================================== *)
(** ** agents/mcp-researcher.ts *)
(* ===================================================================== *)

Definition maxAge : Z := (CACHE_DURATION_DAYS * 24 * 60 * 60 * 1000)%Z.

Definition fallbackDependencies (mcpInfo : McpInfo) : McpResearcherOutput :=
  mkMcpResearcherOutput (mi_name mcpInfo)
    (map (fun api => mkMcpDependency (api_name api) [] true) (mi_upstreamApis mcpInfo))
    (if truthy (mi_useCase mcpInfo) then mi_useCase mcpInfo else js "Unknown").

(** The cache check that opens [analyzeMcpDependencies]: the cached data
    when the entry exists and is younger than [maxAge].  The clock is read
    only when an entry exists; an unreadable timestamp gives [NaN], and
    [NaN < maxAge] is false. *)
Definition checkCache (mcpInfo : McpInfo) (cache : option (gmap jsstring CacheEntry))
  : M (option McpResearcherOutput) :=
  match cache with
  | None => ret None
  | Some c =>
      match c !! mi_name mcpInfo with
      | None => ret None
      | Some cached =>
          now <- Date_now ;;
          match getTime (ce_timestamp cached) with
          | None => ret None
          | Some stamp =>
              let cacheAge := (now - stamp)%Z in
              if (cacheAge <? maxAge)%Z then ret (Some (ce_data cached))
              else ret None
          end
      end
  end.

(** The files read to build the user message ([CLAUDE.md], the first
    files of [src/clients] and [src/tools]) only flow into the request, and
    every read is guarded by its own [try]; the request is recorded by the
    [mcpInfo] it is built for. *)
Definition analyzeMcpDependencies `{FromJSON McpResearcherOutput}
           (mcpInfo : McpInfo) (cache : option (gmap jsstring CacheEntry))
  : M McpResearcherOutput :=
  hit <- checkCache mcpInfo cache ;;
  match hit with
  | Some cachedData => ret cachedData
  | None =>
      response <- callLLM (McpResearcherRequest mcpInfo) ;;
      if failed response then ret (fallbackDependencies mcpInfo)
      else
        match data response with
        | None => ret (fallbackDependencies mcpInfo)
        | Some d =>
            ret (mkMcpResearcherOutput (mi_name mcpInfo) (mro_uses d) (mro_purpose d))
        end
  end.

(** The profile [analyzeMcpDependencies] computes from what the service
    gave: the parsed reply under the consumer's name, or the profile built
    from the discovered APIs when the call failed. *)
Definition recomputedProfile `{FromJSON McpResearcherOutput}
           (mcpInfo : McpInfo) (r : ApiResult) : McpResearcherOutput :=
  match parsedReply McpResearcherOutput r with
  | Some d => mkMcpResearcherOutput (mi_name mcpInfo) (mro_uses d) (mro_purpose d)
  | None => fallbackDependencies mcpInfo
  end.

(** The loop of [analyzeAllMcps] over the consumers not yet analysed. *)
Fixpoint analyzeMcpsFrom `{FromJSON McpResearcherOutput} (mcps : list McpInfo)
         (cache : option (gmap jsstring CacheEntry))
         (results : list McpResearcherOutput) (updatedCache : gmap jsstring CacheEntry)
  : M (list McpResearcherOutput * gmap jsstring CacheEntry) :=
  match mcps with
  | [] => ret (results, updatedCache)
  | mcp :: rest =>
      result <- analyzeMcpDependencies mcp cache ;;
      timestamp <- newDateISO ;;
      analyzeMcpsFrom rest cache (results ++ [result])
        (<[mi_name mcp := mkCacheEntry result timestamp]> updatedCache)
  end.

Definition analyzeAllMcps `{FromJSON McpResearcherOutput} (mcps : list McpInfo)
           (cache : option (gmap jsstring CacheEntry))
  : M (list McpResearcherOutput * gmap jsstring CacheEntry) :=
  analyzeMcpsFrom mcps cache [] (default ∅ cache).

(* ===================================================================== *)
(** ** agents/engineer.ts *)
(* ===================================================================== *)

Fixpoint digitsOfUint (u : Decimal.uint) : jsstring :=
  match u with
  | Decimal.Nil => []
  | Decimal.D0 r => 48 :: digitsOfUint r
  | Decimal.D1 r => 49 :: digitsOfUint r
  | Decimal.D2 r => 50 :: digitsOfUint r
  | Decimal.D3 r => 51 :: digitsOfUint r
  | Decimal.D4 r => 52 :: digitsOfUint r
  | Decimal.D5 r => 53 :: digitsOfUint r
  | Decimal.D6 r => 54 :: digitsOfUint r
  | Decimal.D7 r => 55 :: digitsOfUint r
  | Decimal.D8 r => 56 :: digitsOfUint r
  | Decimal.D9 r => 57 :: digitsOfUint r
  end.

(** [`${n}`] for an array length. *)
Definition numberToString (n : nat) : jsstring := digitsOfUint (Nat.to_uint n).

Definition noChangesDecision : EngineerOutput :=
  mkEngineerOutput none (js "No API changes detected in monitored sources.")
    [] (js "No action needed") [].

Definition fallbackDecision (allChanges : list ApiChange) : EngineerOutput :=
  mkEngineerOutput notify
    (numberToString (length allChanges)
       ++ js " API change(s) detected but automated analysis failed. Manual review recommended.")
    [] (js "Review API changes manually") [].

Definition decideAction `{FromJSON EngineerOutput}
           (apiChanges : list ApiResearcherOutput)
           (mcpDependencies : list McpResearcherOutput) : M EngineerOutput :=
  let allChanges := flat_map aro_changes apiChanges in
  if (length allChanges =? 0)%nat then ret noChangesDecision
  else
    response <- callLLM (EngineerRequest apiChanges mcpDependencies) ;;
    if failed response then ret (fallbackDecision allChanges)
    else
      match data response with
      | None => ret (fallbackDecision allChanges)
      | Some d => ret d
      end.

(* ===================================================================== *)
(** ** Worlds for examples *)
(* ===================================================================== *)

(** A fresh process: no client yet, nothing fetched, no service call made,
    no file. *)
Definition freshWorld (key : option jsstring) (clock : nat -> Z)
           (network : nat -> jsstring -> FetchResult) (service : nat -> ApiResult)
  : World :=
  mkWorld key false clock O network [] service [] ∅.

Definition noNetwork : nat -> jsstring -> FetchResult :=
  fun _ _ => FetchRejects (ErrorObject (js "fetch failed")).

Definition noService : nat -> ApiResult :=
  fun _ => ApiRejects (ErrorObject (js "Connection error.")).

(** What a run returned, if it returned. *)
Definition returned {A : Type} (o : Outcome A) : option A :=
  match o with
  | Returns a _ => Some a
  | Throws _ _ => None
  end.

(** A fetch fails when the request rejects or the body cannot be read. *)
Definition fetchFails (r : FetchResult) : bool :=
  match r with
  | FetchRejects _ => true
  | FetchResolves _ (inl _) => true
  | FetchResolves _ (inr _) => false
  end.

(** A first observation of a page that answers 200. *)
Definition firstSightWorld : World :=
  freshWorld None (fun _ => 1700000000000%Z)
    (fun _ _ => FetchResolves 200 (inr (js "<p>Hello</p>"))) noService.

Definition docsPage : WebPageEntry :=
  mkWebPageEntry (js "https://example.org/docs") (js "API docs").


(** The page was seen with status 200 and fingerprint of [<p>Hello</p>]. *)
Definition seenState : gmap jsstring PageState :=
  {[ wp_url docsPage :=
       mkPageState (hashContent (js "<p>Hello</p>")) (ISO 1690000000000) 200 ]}.

(** The page was already unreachable at the last check. *)
Definition deadState : gmap jsstring PageState :=
  {[ wp_url docsPage := mkPageState [] (ISO 1690000000000) 0 ]}.

(** Every fetch fails. *)
Definition offlineWorld : World :=
  freshWorld None (fun _ => 1700000000000%Z) noNetwork noService.

(** The page now reads [<p>Bye</p>]. *)
Definition editedWorld : World :=
  freshWorld None (fun _ => 1700000000000%Z)
    (fun _ _ => FetchResolves 200 (inr (js "<p>Bye</p>"))) noService.

(** Stand-ins for [JSON.parse] in examples: one that rejects every text,
    one that reads every text as a given value. *)
Definition rejectAll (T : Type) : FromJSON T :=
  fun _ => inl (js "Unexpected token in JSON").

Definition readAs {T : Type} (d : T) : FromJSON T := fun _ => inr d.

(** The service answers every call with a text block holding [text]. *)
Definition answering (text : jsstring) : nat -> ApiResult :=
  fun _ => ApiResolves [TextBlock text] 100 20.

(** A configured process with a quiet network. *)
Definition configuredWorld (service : nat -> ApiResult) : World :=
  freshWorld (Some (js "sk-ant-test")) (fun _ => 1700000000000%Z) noNetwork service.

Definition sunsetNotice : ApiChange :=
  mkApiChange (js "v1 sunset") (js "The v1 endpoints are removed in March.")
    deprecation high (js "https://example.org/docs") None.

Definition exampleChanges : list ApiResearcherOutput :=
  [ mkApiResearcherOutput (js "Example") [sunsetNotice] false ].

Definition weatherMcp : McpInfo :=
  mkMcpInfo (js "mcp-weather") (js "/repo/mcp-weather") (js "Weather forecasts")
    (js "developers") [js "get_forecast"]
    [ mkUpstreamApi (js "Example API") (js "https://api.example.org") (js "src/clients/example.ts") ].

Definition weatherProfile : McpResearcherOutput :=
  mkMcpResearcherOutput (js "mcp-weather")
    [ mkMcpDependency (js "Example API") [js "/v1/forecast"] true ]
    (js "Weather forecasts").

(** A profile computed on 2023-07-22 (1690000000000 ms), and the clock of
    a run one day later. *)
Definition oldProfile : McpResearcherOutput :=
  mkMcpResearcherOutput (js "mcp-weather")
    [ mkMcpDependency (js "Example API") [js "/v0/forecast"] false ]
    (js "Weather forecasts (as analysed in July)").

Definition julyCache : gmap jsstring CacheEntry :=
  {[ js "mcp-weather" := mkCacheEntry oldProfile (ISO 1690000000000) ]}.

Definition oneDay : Z := (24 * 60 * 60 * 1000)%Z.

Definition worldAt (now : Z) (service : nat -> ApiResult) : World :=
  freshWorld (Some (js "sk-ant-test")) (fun _ => now) noNetwork service.

(** A clock that advances by one millisecond at each reading. *)
Definition tickingFrom (start : Z) : nat -> Z := fun n => (start + Z.of_nat n)%Z.

Definition tickingWorld (start : Z) (service : nat -> ApiResult) : World :=
  freshWorld (Some (js "sk-ant-test")) (tickingFrom start) noNetwork service.




(** The state file of the examples, and the text [JSON.stringify] with an
    indentation of two gives for the empty state
    [{ sources: {}, lastCheck: null }]. *)
Definition statePath : jsstring := js "monitoring/state/last-check.json".

Definition emptyStateText : jsstring :=
  js "{" ++ [10] ++ js "  " ++ [34] ++ js "sources" ++ [34] ++ js ": {}," ++ [10]
     ++ js "  " ++ [34] ++ js "lastCheck" ++ [34] ++ js ": null" ++ [10] ++ js "}".

(** Stand-in for [JSON.stringify] in examples that save the empty state. *)
Definition stringifyEmptyState : ToJSON CheckState := fun _ => emptyStateText.


(* ===================================================================== *)
(** ** Vocabulary of the fingerprint properties *)
(* ===================================================================== *)

(** A run of whitespace. *)
Definition allWhiteSpace (s : jsstring) : bool := forallb isWhiteSpace s.

(** A string that is, from end to end, one match of the timestamp
    pattern. *)
Definition isTimestamp (t : jsstring) : bool :=
  matchUnits timestampPattern t && (length t =? length timestampPattern)%nat.

(** Two contents differ only in whitespace: without their whitespace they
    are the same. *)
Definition withoutWhiteSpace (s : jsstring) : jsstring :=
  filter (fun c => negb (isWhiteSpace c)) s.

(** The last code unit of the text before a timestamp is neither a digit
    nor a colon (or there is no text before it). *)
Definition endsClear (a : jsstring) : bool :=
  match last a with
  | Some c => negb (isDigit c) && negb (c =? 58)
  | None => true
  end.

(** Whether the text read so far ends in whitespace; [inRun] answers for
    the empty text. *)
Definition endsInRun (inRun : bool) (a : jsstring) : bool :=
  match last a with
  | Some c => isWhiteSpace c
  | None => inRun
  end.

(** A match of the timestamp pattern cannot start [m] code units before
    the end of a text that [endsClear] and run into a timestamp that
    follows: either the unit of the pattern that would meet the last code
    unit of the text is a digit or a colon, or the third code unit of the
    timestamp, a digit, would meet a literal. *)
Definition overlapBlocked (m : nat) : bool :=
  match timestampPattern !! (m - 1)%nat with
  | Some Digit => true
  | Some (Lit l) =>
      (l =? 58)
      || match timestampPattern !! (m + 2)%nat with
         | Some (Lit l') => negb (isDigit l')
         | _ => false
         end
  | None => false
  end.

(** The second pass of the normalization. *)
Definition replaceTimestamps (s : jsstring) : jsstring :=
  replaceAll matchTimestamp (js "[timestamp]") s.

(** Whitespace runs collapsed to one space, written by recursion on the
    text: [inRun] tells that the unit before was whitespace. *)
Fixpoint collapseWs (inRun : bool) (s : jsstring) : jsstring :=
  match s with
  | [] => []
  | c :: s' =>
      if isWhiteSpace c then
        if inRun then collapseWs true s' else 32 :: collapseWs true s'
      else c :: collapseWs false s'
  end.

(* ===================================================================== *)
(** ** source-checker.ts: grouping the changes, and the whole check *)
(* ===================================================================== *)

(** The value kept under a provider key by [groupChangesByProvider]. *)
Record ProviderGroup := mkProviderGroup {
  grp_name : jsstring;
  grp_pages : list Page
}.

(** A [Map] with string keys, by its entries in insertion order. *)
Fixpoint mapGet {V : Type} (key : jsstring) (m : list (jsstring * V)) : option V :=
  match m with
  | [] => None
  | (k, v) :: rest => if bool_decide (k = key) then Some v else mapGet key rest
  end.

Definition mapHas {V : Type} (key : jsstring) (m : list (jsstring * V)) : bool :=
  match mapGet key m with Some _ => true | None => false end.

(** [grouped.get(key)!.pages.push(page)] *)
Fixpoint pushPage (key : jsstring) (page : Page)
         (grouped : list (jsstring * ProviderGroup)) : list (jsstring * ProviderGroup) :=
  match grouped with
  | [] => []
  | (k, g) :: rest =>
      if bool_decide (k = key)
      then (k, mkProviderGroup (grp_name g) (grp_pages g ++ [page])) :: rest
      else (k, g) :: pushPage key page rest
  end.

(** [change.content] when it is truthy: present and not the empty string. *)
Definition truthyContent (change : SourceChange) : option jsstring :=
  match sc_content change with
  | Some content => if truthy content then Some content else None
  | None => None
  end.

(** One turn of the loop of [groupChangesByProvider]. *)
Definition groupChange (grouped : list (jsstring * ProviderGroup)) (change : SourceChange)
  : list (jsstring * ProviderGroup) :=
  match truthyContent change with
  | None => grouped
  | Some content =>
      let grouped' :=
        if mapHas (sc_apiKey change) grouped then grouped
        else grouped ++ [(sc_apiKey change, mkProviderGroup (sc_apiName change) [])] in
      pushPage (sc_apiKey change) (mkPage (sc_url change) content) grouped'
  end.

Definition groupChangesByProvider (changes : list SourceChange)
  : list (jsstring * ProviderGroup) :=
  fold_left groupChange changes [].

(** The pages a list of changes holds for a provider key: those of the
    changes of that key that carry content, in order. *)
Definition pagesFor (key : jsstring) (changes : list SourceChange) : list Page :=
  flat_map (fun change =>
              match truthyContent change with
              | Some content =>
                  if bool_decide (sc_apiKey change = key)
                  then [mkPage (sc_url change) content] else []
              | None => []
              end)
           changes.

(** The display name a list of changes gives a provider key: that of the
    first change of the key that carries content. *)
Definition nameFor (key : jsstring) (changes : list SourceChange) : option jsstring :=
  sc_apiName
    <$> List.find (fun change =>
                     match truthyContent change with
                     | Some _ => bool_decide (sc_apiKey change = key)
                     | None => false
                     end)
                  changes.

(** Three changes of two providers, the second of them an outage. *)
Definition sampleChanges : list SourceChange :=
  [ mkSourceChange (js "smhi") (js "SMHI") (js "https://smhi.example/news")
      (js "News") modified (Some (js "Sunset of v1")) (Some (js "aaaa")) (Some (js "bbbb"))
      (Some 200) (Some 200);
    mkSourceChange (js "sgu") (js "SGU") (js "https://sgu.example/docs")
      (js "Docs") unavailable None None None (Some 200) (Some 0);
    mkSourceChange (js "smhi") (js "SMHI open data") (js "https://smhi.example/docs")
      (js "Docs") new (Some (js "Welcome")) None (Some (js "cccc")) None (Some 200) ].

Record SourceEntry := mkSourceEntry {
  src_name : jsstring;
  src_web_pages : list WebPageEntry
}.

(** [sources] by its entries, in the order [Object.entries] gives them. *)
Record SourceConfig := mkSourceConfig {
  cfg_sources : list (jsstring * SourceEntry)
}.

(** [parseYaml(text) as T], and [join] of the [path] module for a directory
    and a file name. *)
Class FromYAML (T : Type) := YAML_parse : jsstring -> jsstring + T.
Class PathModule := path_join : jsstring -> jsstring -> jsstring.

Definition loadSourceConfig `{FromYAML SourceConfig} (configPath : jsstring)
  : M SourceConfig :=
  content <- readFile configPath ;;
  match YAML_parse content with
  | inl message => throw (ErrorObject message)
  | inr config => ret config
  end.

(** The inner loop of [checkSources], over the pages of one provider not
    yet checked.  [sourceState] is the object [state.sources[apiKey]]. *)
Fixpoint checkPagesFrom (apiKey apiName : jsstring) (pages : list WebPageEntry)
         (sourceState : gmap jsstring PageState) (changes : list SourceChange)
  : M (list SourceChange * gmap jsstring PageState) :=
  match pages with
  | [] => ret (changes, sourceState)
  | pageEntry :: rest =>
      r <- checkSingleSource apiKey apiName pageEntry sourceState ;;
      checkPagesFrom apiKey apiName rest (snd r)
        (match fst r with
         | Some change => changes ++ [change]
         | None => changes
         end)
  end.

(** The outer loop, over the providers not yet checked. *)
Fixpoint checkSourcesFrom (sources : list (jsstring * SourceEntry))
         (stateSources : gmap jsstring (gmap jsstring PageState))
         (changes : list SourceChange)
  : M (list SourceChange * gmap jsstring (gmap jsstring PageState)) :=
  match sources with
  | [] => ret (changes, stateSources)
  | (apiKey, source) :: rest =>
      let sourceState := default ∅ (stateSources !! apiKey) in
      r <- checkPagesFrom apiKey (src_name source) (src_web_pages source)
             sourceState changes ;;
      checkSourcesFrom rest (<[apiKey := snd r]> stateSources) (fst r)
  end.

Definition checkSources `{PathModule} `{FromYAML SourceConfig}
           `{FromJSON CheckState} `{ToJSON CheckState}
           (configDir stateDir : jsstring) : M (list SourceChange * CheckState) :=
  let configPath := path_join configDir (js "sources.yaml") in
  let statePath := path_join stateDir (js "last-check.json") in
  config <- loadSourceConfig configPath ;;
  state <- loadCheckState statePath ;;
  r <- checkSourcesFrom (cfg_sources config) (cs_sources state) [] ;;
  lastCheck <- newDateISO ;;
  let state' := mkCheckState (snd r) (cs_mcpCache state) (Some lastCheck) in
  _ <- saveCheckState statePath state' ;;
  ret (fst r, state').

(** The configured pages with their provider keys, in the order in which
    [checkSources] checks them. *)
Definition configuredPages (sources : list (jsstring * SourceEntry))
  : list (jsstring * WebPageEntry) :=
  flat_map (fun entry => map (fun page => (fst entry, page)) (src_web_pages (snd entry)))
           sources.




(** Stand-ins for the [path] and [yaml] modules in examples: [join] that
    puts a slash between a directory and a file name, and a parser that
    reads every text as a given configuration. *)
Definition joinWithSlash : PathModule := fun dir file => dir ++ [47] ++ file.

Definition twoProviders : SourceConfig :=
  mkSourceConfig
    [ (js "smhi", mkSourceEntry (js "SMHI")
                    [ mkWebPageEntry (js "https://smhi.example/news") (js "News");
                      mkWebPageEntry (js "https://smhi.example/docs") (js "Docs") ]);
      (js "sgu", mkSourceEntry (js "SGU")
                   [ mkWebPageEntry (js "https://sgu.example/docs") (js "Docs") ]) ].


Definition yamlReadAs {T : Type} (d : T) : FromYAML T := fun _ => inr d.





(* ===================================================================== *)
(** ** Vocabulary and examples for the agents *)
(* ===================================================================== *)

(** A second consumer, without discovered API and without use case, and a
    reply of the service that names a consumer of its own. *)
Definition geologyMcp : McpInfo :=
  mkMcpInfo (js "mcp-geology") (js "/repo/mcp-geology") [] [] [js "get_bedrock"] [].

Definition misnamedProfile : McpResearcherOutput :=
  mkMcpResearcherOutput (js "some-other-server")
    [ mkMcpDependency (js "Example API") [js "/v2/forecast"] false ]
    (js "Forecasts").

(** A decision of the service that asks for no action while naming an
    affected consumer. *)
Definition quietDecision : EngineerOutput :=
  mkEngineerOutput none (js "Nothing to do.") [js "mcp-weather"]
    (js "No action needed") [].

(** A lowercase hexadecimal digit. *)
Definition isLowerHex (c : N) : bool :=
  ((48 <=? c) && (c <=? 57)) || ((97 <=? c) && (c <=? 102)).

(** A text whose whitespace is single spaces between other code units:
    every whitespace unit is a space, comes after a unit that is not
    whitespace and is followed by one.  [afterText] tells that the unit
    before is not whitespace. *)
Fixpoint spacedFrom (afterText : bool) (s : jsstring) : bool :=
  match s with
  | [] => true
  | c :: s' =>
      if isWhiteSpace c then
        afterText && (c =? 32)
        && match s' with
           | d :: _ => negb (isWhiteSpace d)
           | [] => false
           end
        && spacedFrom false s'
      else spacedFrom true s'
  end.

Definition singleSpaced (s : jsstring) : bool := spacedFrom false s.

(* ===================================================================== *)
(** ** slack-notifier.ts *)
(* ===================================================================== *)

Record BlockText := mkBlockText {
  bt_type : jsstring;
  bt_text : jsstring;
  bt_emoji : option bool
}.

Record BlockElement := mkBlockElement {
  be_type : jsstring;
  be_text : option jsstring;
  be_url : option jsstring
}.

Record SlackBlock := mkSlackBlock {
  sb_type : jsstring;
  sb_text : option BlockText;
  sb_elements : option (list BlockElement)
}.

(** The argument of [webhook.send]. *)
Record SlackMessage := mkSlackMessage {
  msg_text : jsstring;
  msg_blocks : list SlackBlock
}.

(** [date.toISOString()] of a valid date, by its instant. *)
Class ISOFormat := toISOString : Z -> jsstring.

(** [array.join(separator)] on an array of strings. *)
Fixpoint Array_join (separator : jsstring) (l : list jsstring) : jsstring :=
  match l with
  | [] => []
  | x :: rest =>
      match rest with
      | [] => x
      | _ :: _ => x ++ separator ++ Array_join separator rest
      end
  end.

(** The object literals of the blocks. *)
Definition headerBlock (text : jsstring) : SlackBlock :=
  mkSlackBlock (js "header") (Some (mkBlockText (js "plain_text") text (Some true))) None.

Definition sectionBlock (text : jsstring) : SlackBlock :=
  mkSlackBlock (js "section") (Some (mkBlockText (js "mrkdwn") text None)) None.

Definition dividerBlock : SlackBlock := mkSlackBlock (js "divider") None None.

Definition contextBlock (text : jsstring) : SlackBlock :=
  mkSlackBlock (js "context") None
    (Some [mkBlockElement (js "mrkdwn") (Some text) None]).

Definition isUrgent (action : ActionType) : bool :=
  match action with urgent => true | _ => false end.

Definition impactEmoji (impact : ImpactLevel) : jsstring :=
  match impact with
  | high => js ":red_circle:"
  | medium => js ":large_yellow_circle:"
  | low => js ":white_circle:"
  end.

(** The bullet [U+2022] and a space. *)
Definition bullet : jsstring := [8226; 32].

Definition detailBlock (detail : EngineerDetail) : SlackBlock :=
  sectionBlock
    (impactEmoji (ed_impact detail) ++ js " *" ++ ed_mcp detail ++ js "*" ++ [10]
     ++ Array_join [10] (map (fun c => bullet ++ c) (ed_changes detail))).

Definition buildSlackBlocks `{ISOFormat} (engineerOutput : EngineerOutput)
  : M (list SlackBlock) :=
  let headerEmoji :=
    if isUrgent (eo_action engineerOutput) then js ":rotating_light:" else js ":bell:" in
  let headerText :=
    if isUrgent (eo_action engineerOutput)
    then js "MCP Monitor - URGENT Action Required"
    else js "MCP Monitor - Changes Detected" in
  let blocks :=
    [ headerBlock headerText;
      sectionBlock (headerEmoji ++ js " *" ++ eo_summary engineerOutput ++ js "*") ] in
  let blocks :=
    if (0 <? length (eo_affectedMcps engineerOutput))%nat
    then blocks ++ [sectionBlock (js "*Affected MCPs:* "
                                  ++ Array_join (js ", ") (eo_affectedMcps engineerOutput))]
    else blocks in
  let blocks := blocks ++ [dividerBlock] in
  let blocks := blocks ++ map detailBlock (eo_details engineerOutput) in
  let blocks :=
    if bool_decide (eo_recommendedAction engineerOutput <> js "No action needed")
    then blocks ++ [ dividerBlock;
                     sectionBlock (js ":clipboard: *Recommended Action:*" ++ [10]
                                   ++ eo_recommendedAction engineerOutput) ]
    else blocks in
  now <- Date_now ;;
  ret (blocks ++ [contextBlock (js "Report generated at " ++ toISOString now
                                ++ js " | MCP Monitor v2 (LLM-powered)")]).

Definition actionIndicator (action : ActionType) : jsstring :=
  match action with
  | urgent => js "[!!!] URGENT"
  | notify => js "[!] NOTIFY"
  | none => js "[ ] NO ACTION"
  end.

Definition impactIcon (impact : ImpactLevel) : jsstring :=
  match impact with
  | high => js "[!]"
  | medium => js "[~]"
  | low => js "[ ]"
  end.

Definition impactName (impact : ImpactLevel) : jsstring :=
  match impact with
  | high => js "high"
  | medium => js "medium"
  | low => js "low"
  end.

(** The rules of the report: 63 times [U+2550], and 63 times [U+2500]. *)
Definition doubleRule : jsstring := repeat 9552 63.
Definition singleRule : jsstring := repeat 9472 63.

Definition detailLines (detail : EngineerDetail) : list jsstring :=
  [ [];
    impactIcon (ed_impact detail) ++ js " " ++ ed_mcp detail ++ js " ("
    ++ impactName (ed_impact detail) ++ js " impact)" ]
  ++ map (fun change => js "    " ++ bullet ++ change) (ed_changes detail).

Definition formatConsoleReport `{ISOFormat} (engineerOutput : EngineerOutput)
  : M jsstring :=
  let lines :=
    [ []; doubleRule;
      js "              MCP UPSTREAM API MONITOR REPORT v2               ";
      doubleRule; [];
      js "Action: " ++ actionIndicator (eo_action engineerOutput); [];
      js "Summary: " ++ eo_summary engineerOutput; [] ] in
  let lines :=
    if (0 <? length (eo_affectedMcps engineerOutput))%nat
    then lines ++ [ js "Affected MCPs: "
                    ++ Array_join (js ", ") (eo_affectedMcps engineerOutput); [] ]
    else lines in
  let lines :=
    if (0 <? length (eo_details engineerOutput))%nat
    then lines
         ++ [ singleRule;
              js "                          DETAILS                              ";
              singleRule ]
         ++ flat_map detailLines (eo_details engineerOutput) ++ [[]]
    else lines in
  let lines :=
    if bool_decide (eo_recommendedAction engineerOutput <> js "No action needed")
    then lines ++ [ singleRule;
                    js "Recommended Action: " ++ eo_recommendedAction engineerOutput ]
    else lines in
  now <- Date_now ;;
  ret (Array_join [10]
         (lines ++ [ []; js "Report generated: " ++ toISOString now ])).

(* ===================================================================== *)
(** ** The process: the world, the Slack webhook and the exit *)
(* ===================================================================== *)

(** The world of the agents together with what the commands of [index.ts]
    and the notifier add to it.  What the commands print is left out. *)
Record Process := mkProcess {
  world : World;
  (** [process.env.SLACK_WEBHOOK_URL] *)
  env_SLACK_WEBHOOK_URL : option jsstring;
  (** the webhook: what the n-th [send] gives ([None]: it resolves), and
      the messages handed to [send], each with the URL of its webhook *)
  webhook : nat -> option Thrown;
  sent : list (jsstring * SlackMessage)
}.

Definition setWorld (w : World) (p : Process) : Process :=
  mkProcess w (env_SLACK_WEBHOOK_URL p) (webhook p) (sent p).

Definition logSend (url : jsstring) (message : SlackMessage) (p : Process) : Process :=
  mkProcess (world p) (env_SLACK_WEBHOOK_URL p) (webhook p)
            (sent p ++ [(url, message)]).

(** How a command ends: it returns, it throws, or it ends the process with
    [process.exit(code)]. *)
Inductive Run (A : Type) :=
| Done (a : A) (p : Process)
| Raised (e : Thrown) (p : Process)
| Exited (code : N) (p : Process).
Arguments Done {A}.
Arguments Raised {A}.
Arguments Exited {A}.

Definition P (A : Type) : Type := Process -> Run A.

Definition pret {A} (a : A) : P A := fun p => Done a p.

Definition pbind {A B} (m : P A) (k : A -> P B) : P B :=
  fun p => match m p with
           | Done a p' => k a p'
           | Raised e p' => Raised e p'
           | Exited code p' => Exited code p'
           end.

(** [process.exit(code)] *)
Definition pexit {A} (code : N) : P A := fun p => Exited code p.

(** [try { body } catch (e) { handler(e) }]; the end of the process is not
    an exception. *)
Definition ptryCatch {A} (body : P A) (handler : Thrown -> P A) : P A :=
  fun p => match body p with
           | Done a p' => Done a p'
           | Raised e p' => handler e p'
           | Exited code p' => Exited code p'
           end.

(** A function of the agents, run in the process. *)
Definition lift {A} (m : M A) : P A :=
  fun p => match m (world p) with
           | Returns a w => Done a (setWorld w p)
           | Throws e w => Raised e (setWorld w p)
           end.

Notation "x <~ m ;; k" := (pbind m (fun x => k))
  (at level 100, m at next level, right associativity,
   format "'[v' x  <~  m  ;;  '/' k ']'").

(** [await new IncomingWebhook(url).send(message)]; the constructor only
    rejects an undefined URL, and the notifier always hands it a string. *)
Definition webhookSend (url : jsstring) (message : SlackMessage) : P unit :=
  fun p =>
    let p' := logSend url message p in
    match webhook p (length (sent p)) with
    | None => Done tt p'
    | Some e => Raised e p'
    end.

Definition notifyChanges `{ISOFormat} (webhookUrl : jsstring)
           (engineerOutput : EngineerOutput) : P bool :=
  match eo_action engineerOutput with
  | none => pret false
  | _ =>
      blocks <~ lift (buildSlackBlocks engineerOutput) ;;
      ptryCatch
        (_ <~ webhookSend webhookUrl
                (mkSlackMessage (js "MCP Monitor: " ++ eo_summary engineerOutput)
                   blocks) ;;
         pret true)
        (fun _ => pret false)
  end.

Definition sendTestNotification `{ISOFormat} (webhookUrl : jsstring) : P bool :=
  ptryCatch
    (now <~ lift Date_now ;;
     _ <~ webhookSend webhookUrl
            (mkSlackMessage (js "MCP Monitor Test")
               [ headerBlock (js "MCP Monitor v2 - Test Notification");
                 sectionBlock
                   (js "This is a test notification from the MCP Upstream API Monitor v2 (LLM-powered). If you see this, your Slack webhook is configured correctly!");
                 contextBlock (js "Sent at: " ++ toISOString now) ]) ;;
     pret true)
    (fun _ => pret false).

(* ===================================================================== *)
(** ** index.ts *)
(* ===================================================================== *)

(** [discoverMcps(repoRoot)] of discovery.ts walks the repository and reads
    files in it; it writes nothing.  It is taken by what it finds, or by
    what it throws. *)
Class Discovery := discoverMcps : jsstring -> World -> Thrown + list McpInfo.

Definition runDiscovery `{Discovery} (repoRoot : jsstring) : M (list McpInfo) :=
  fun w => match discoverMcps repoRoot w with
           | inl e => Throws e w
           | inr mcps => Returns mcps w
           end.

(** The loop of [runFullCheck] over the changed providers not yet
    analysed. *)
Fixpoint analyzeChangedProviders `{FromJSON ApiResearcherOutput}
         (changedProviders : list (jsstring * ProviderGroup))
         (apiChanges : list ApiResearcherOutput) : M (list ApiResearcherOutput) :=
  match changedProviders with
  | [] => ret apiChanges
  | (apiKey, providerData) :: rest =>
      result <- analyzeProviderPages (grp_name providerData) (grp_pages providerData) ;;
      analyzeChangedProviders rest (apiChanges ++ [result])
  end.

Definition runCheckSources `{PathModule} `{FromYAML SourceConfig}
           `{FromJSON CheckState} `{ToJSON CheckState}
           (configDir stateDir : jsstring) : P unit :=
  r <~ lift (checkSources configDir stateDir) ;;
  pret tt.

Definition runFullCheck `{PathModule} `{FromYAML SourceConfig}
           `{FromJSON CheckState} `{ToJSON CheckState}
           `{FromJSON ApiResearcherOutput} `{FromJSON McpResearcherOutput}
           `{FromJSON EngineerOutput} `{ISOFormat} `{Discovery}
           (repoRoot configDir stateDir : jsstring) : P unit :=
  fun p =>
    if negb (isConfigured (world p)) then pexit 1 p
    else
      (mcps <~ lift (runDiscovery repoRoot) ;;
       r <~ lift (checkSources configDir stateDir) ;;
       let changes := fst r in
       let state := snd r in
       let changedProviders := groupChangesByProvider changes in
       analysed <~ (if (0 <? length changedProviders)%nat then
                      apiChanges <~ lift (analyzeChangedProviders changedProviders []) ;;
                      r' <~ lift (analyzeAllMcps mcps (cs_mcpCache state)) ;;
                      let state' := mkCheckState (cs_sources state) (Some (snd r'))
                                      (cs_lastCheck state) in
                      let statePath := path_join stateDir (js "last-check.json") in
                      _ <~ lift (saveCheckState statePath state') ;;
                      pret (apiChanges, fst r')
                    else pret ([], [])) ;;
       engineerOutput <~ lift (decideAction (fst analysed) (snd analysed)) ;;
       _ <~ lift (formatConsoleReport engineerOutput) ;;
       fun p' =>
         match env_SLACK_WEBHOOK_URL p' with
         | Some webhookUrl =>
             if truthy webhookUrl
             then (_ <~ notifyChanges webhookUrl engineerOutput ;; pret tt) p'
             else pret tt p'
         | None => pret tt p'
         end) p.

Definition runNotifyTest `{ISOFormat} : P unit :=
  fun p =>
    match env_SLACK_WEBHOOK_URL p with
    | Some webhookUrl =>
        if truthy webhookUrl
        then (success <~ sendTestNotification webhookUrl ;;
              if success then pret tt else pexit 1) p
        else pexit 1 p
    | None => pexit 1 p
    end.

(* ===================================================================== *)
(** ** Vocabulary and examples for the commands *)
(* ===================================================================== *)




(** Stand-ins for [toISOString] and for the discovery in examples. *)
Definition isoStub : ISOFormat := fun _ => js "2023-11-14T22:13:20.000Z".


Definition processOf (w : World) (url : option jsstring)
           (hook : nat -> option Thrown) : Process :=
  mkProcess w url hook [].

Definition hookUrl : jsstring := js "https://hooks.slack.example/T0/B0".


Definition hookRejects : nat -> option Thrown :=
  fun _ => Some (ErrorObject (js "An HTTP protocol error occurred: statusCode = 404")).




(* ===================================================================== *)
(** * Properties *)
(* ===================================================================== *)

(** Unfolds the monad of a goal down to the outcome of the run. *)
Ltac run :=
  cbv beta delta [bind ret throw tryCatch newDateISO Date_now fetchText
                  messagesCreate readFile writeFile getClient] iota zeta.

(** ** The fingerprint *)

Lemma hexOfState_length (s : Sha256.state) :
  length (Sha256.hexOfState s) = 64%nat.
Proof. reflexivity. Qed.

Lemma hashContent_length (content : jsstring) :
  length (hashContent content) = 16%nat.
Proof.
  unfold hashContent, slicePrefix, Sha256.digestHex.
  rewrite length_firstn, hexOfState_length. reflexivity.
Qed.

Lemma hashContent_nonempty (content : jsstring) : hashContent content <> [].
Proof.
  intros E. pose proof (hashContent_length content) as L.
  rewrite E in L. discriminate L.
Qed.

Example sha256_constants :
  hd 0 Sha256.K = 0x428a2f98 /\ List.last Sha256.K 0 = 0xc67178f2
  /\ length Sha256.K = 64%nat
  /\ Sha256.sa Sha256.H0 = 0x6a09e667 /\ Sha256.sh Sha256.H0 = 0x5be0cd19.
Proof. repeat split. Qed.

(** SHA-256 test vectors. *)
Example digestHex_abc :
  Sha256.digestHex (js "abc")
  = js "ba7816bf8f01cfea414140de5dae2223b00361a396177a9cb410ff61f20015ad".
Proof. vm_compute. reflexivity. Qed.

Example digestHex_two_blocks :
  Sha256.digestHex (js "abcdbcdecdefdefgefghfghighijhijkijkljklmklmnlmnomnopnopq")
  = js "248d6a61d20638b8e5c026930c3e6039a33ce45964ff2167f6ecedd419db06c1".
Proof. vm_compute. reflexivity. Qed.

(** ** The change detector *)

Section ChangeDetector.

Variables (apiKey apiName : jsstring) (pageEntry : WebPageEntry).
Variable sourceState : gmap jsstring PageState.

Let url := wp_url pageEntry.
Let description := wp_description pageEntry.

(** What a successful fetch leaves: the record stored under the URL. *)
Lemma checkSingleSource_success (w : World) (status : N) (content : jsstring) :
  network w (length (fetches w)) url = FetchResolves status (inr content) ->
  checkSingleSource apiKey apiName pageEntry sourceState w
  = Returns
      (match sourceState !! url with
       | None =>
           Some (mkSourceChange apiKey apiName url description new
                   (Some (extractTextContent content)) None
                   (Some (hashContent content)) None (Some status))
       | Some previous =>
           if bool_decide (ps_hash previous = hashContent content) then None
           else Some (mkSourceChange apiKey apiName url description modified
                        (Some (extractTextContent content))
                        (Some (ps_hash previous)) (Some (hashContent content))
                        (Some (ps_status previous)) (Some status))
       end,
       <[url := mkPageState (hashContent content)
                  (ISO (clock w (clockReads w))) status]> sourceState)
      (tickClock (logFetch url w)).
Proof.
  intros Hfetch. unfold checkSingleSource. run.
  fold url description. rewrite Hfetch. cbn [fst snd].
  destruct (sourceState !! url) as [previous|]; [|reflexivity].
  destruct (bool_decide (ps_hash previous = hashContent content)); reflexivity.
Qed.

(** What a failed fetch leaves. *)
Lemma checkSingleSource_failure (w : World) :
  fetchFails (network w (length (fetches w)) url) = true ->
  checkSingleSource apiKey apiName pageEntry sourceState w
  = Returns
      (match sourceState !! url with
       | Some previous =>
           if ps_status previous =? 0 then None
           else Some (mkSourceChange apiKey apiName url description unavailable
                        None None None (Some (ps_status previous)) (Some 0))
       | None => None
       end,
       <[url := mkPageState [] (ISO (clock w (clockReads w))) 0]> sourceState)
      (tickClock (logFetch url w)).
Proof.
  intros Hfetch. unfold checkSingleSource. run.
  fold url description.
  destruct (network w (length (fetches w)) url) as [e|status [e|body]];
    try discriminate Hfetch; cbn [fst snd];
    (destruct (sourceState !! url) as [previous|]; [|reflexivity]);
    destruct (ps_status previous =? 0); reflexivity.
Qed.

End ChangeDetector.

(** C1.  On a successful fetch of a URL (the request resolves, with any
    status, and the body is read), [checkSingleSource] returns at most one
    change record, decided by the prior state: with no prior record for
    the URL the record has kind [new] and carries the extracted text and the
    current fingerprint; with a prior record whose fingerprint equals the
    fresh one there is no record; with a prior record of fingerprint [H1]
    and a fresh fingerprint [H2 <> H1] the record has kind [modified],
    [previousHash = H1], [currentHash = H2] and carries the extracted
    text. *)
Theorem checkSingleSource_classifies_from_prior_state
  (apiKey apiName : jsstring) (pageEntry : WebPageEntry)
  (sourceState : gmap jsstring PageState)
  (w : World) (status : N) (content : jsstring) :
  network w (length (fetches w)) (wp_url pageEntry)
    = FetchResolves status (inr content) ->
  exists (change : option SourceChange) sourceState' w',
    checkSingleSource apiKey apiName pageEntry sourceState w
      = Returns (change, sourceState') w'
    /\ (sourceState !! wp_url pageEntry = None ->
        exists c, change = Some c
          /\ sc_changeType c = new
          /\ sc_url c = wp_url pageEntry
          /\ sc_content c = Some (extractTextContent content)
          /\ sc_currentHash c = Some (hashContent content)
          /\ sc_previousHash c = None)
    /\ (forall previous,
          sourceState !! wp_url pageEntry = Some previous ->
          ps_hash previous = hashContent content ->
          change = None)
    /\ (forall previous,
          sourceState !! wp_url pageEntry = Some previous ->
          ps_hash previous <> hashContent content ->
          exists c, change = Some c
            /\ sc_changeType c = modified
            /\ sc_url c = wp_url pageEntry
            /\ sc_content c = Some (extractTextContent content)
            /\ sc_previousHash c = Some (ps_hash previous)
            /\ sc_currentHash c = Some (hashContent content)).
Proof.
  intros Hfetch.
  eexists _, _, _. split.
  { apply checkSingleSource_success. exact Hfetch. }
  split; [|split].
  - intros ->. eexists. repeat split.
  - intros previous -> Heq.
    rewrite bool_decide_eq_true_2 by exact Heq. reflexivity.
  - intros previous -> Hne.
    rewrite bool_decide_eq_false_2 by exact Hne.
    eexists. repeat split.
Qed.

Lemma checkSingleSource_classifies_witness :
  exists (change : option SourceChange) sourceState' w',
    checkSingleSource (js "example") (js "Example") docsPage ∅ firstSightWorld
      = Returns (change, sourceState') w'
    /\ ((∅ : gmap jsstring PageState) !! wp_url docsPage = None ->
        exists c, change = Some c
          /\ sc_changeType c = new
          /\ sc_url c = wp_url docsPage
          /\ sc_content c = Some (extractTextContent (js "<p>Hello</p>"))
          /\ sc_currentHash c = Some (hashContent (js "<p>Hello</p>"))
          /\ sc_previousHash c = None)
    /\ (forall previous,
          (∅ : gmap jsstring PageState) !! wp_url docsPage = Some previous ->
          ps_hash previous = hashContent (js "<p>Hello</p>") ->
          change = None)
    /\ (forall previous,
          (∅ : gmap jsstring PageState) !! wp_url docsPage = Some previous ->
          ps_hash previous <> hashContent (js "<p>Hello</p>") ->
          exists c, change = Some c
            /\ sc_changeType c = modified
            /\ sc_url c = wp_url docsPage
            /\ sc_content c = Some (extractTextContent (js "<p>Hello</p>"))
            /\ sc_previousHash c = Some (ps_hash previous)
            /\ sc_currentHash c = Some (hashContent (js "<p>Hello</p>"))).
Proof.
  apply (checkSingleSource_classifies_from_prior_state
           (js "example") (js "Example") docsPage ∅ firstSightWorld 200
           (js "<p>Hello</p>")).
  reflexivity.
Defined.

Example checkSingleSource_first_sight :
  fst <$> returned (checkSingleSource (js "example") (js "Example") docsPage ∅
                      firstSightWorld)
  = Some (Some (mkSourceChange (js "example") (js "Example")
                  (js "https://example.org/docs") (js "API docs") new
                  (Some (js "Hello")) None (Some (js "d0a26d23e9d8e053"))
                  None (Some 200))).
Proof. vm_compute. reflexivity. Qed.

Example checkSingleSource_unchanged :
  fst <$> returned (checkSingleSource (js "example") (js "Example") docsPage
                      seenState firstSightWorld)
  = Some None.
Proof. vm_compute. reflexivity. Qed.

Example checkSingleSource_edited :
  fst <$> returned (checkSingleSource (js "example") (js "Example") docsPage
                      seenState editedWorld)
  = Some (Some (mkSourceChange (js "example") (js "Example")
                  (js "https://example.org/docs") (js "API docs") modified
                  (Some (js "Bye")) (Some (js "d0a26d23e9d8e053"))
                  (Some (js "e81f235c49cbae58")) (Some 200) (Some 200))).
Proof. vm_compute. reflexivity. Qed.



Example checkSingleSource_went_offline :
  fst <$> returned (checkSingleSource (js "example") (js "Example") docsPage
                      seenState offlineWorld)
  = Some (Some (mkSourceChange (js "example") (js "Example")
                  (js "https://example.org/docs") (js "API docs") unavailable
                  None None None (Some 200) (Some 0))).
Proof. vm_compute. reflexivity. Qed.

Example checkSingleSource_still_offline :
  fst <$> returned (checkSingleSource (js "example") (js "Example") docsPage
                      deadState offlineWorld)
  = Some None.
Proof. vm_compute. reflexivity. Qed.

Example checkSingleSource_never_seen_offline :
  fst <$> returned (checkSingleSource (js "example") (js "Example") docsPage
                      ∅ offlineWorld)
  = Some None.
Proof. vm_compute. reflexivity. Qed.

(** C10.  A failed fetch stores the empty string as the fingerprint of the
    URL.  Hence, for a URL that had fingerprint [H], a failed fetch followed
    by a successful fetch of content whose fingerprint is [H] again returns
    a record of kind [modified] whose [previousHash] is the empty string. *)
Theorem recovery_with_same_content_is_modified
  (apiKey apiName : jsstring) (pageEntry : WebPageEntry)
  (sourceState : gmap jsstring PageState) (w : World) :
  fetchFails (network w (length (fetches w)) (wp_url pageEntry)) = true ->
  exists (change1 : option SourceChange) (sourceState1 : gmap jsstring PageState) w1,
    checkSingleSource apiKey apiName pageEntry sourceState w
      = Returns (change1, sourceState1) w1
    /\ ps_hash <$> sourceState1 !! wp_url pageEntry = Some []
    /\ forall previous w2 status content,
         sourceState !! wp_url pageEntry = Some previous ->
         hashContent content = ps_hash previous ->
         network w2 (length (fetches w2)) (wp_url pageEntry)
           = FetchResolves status (inr content) ->
         exists c sourceState2 w3,
           checkSingleSource apiKey apiName pageEntry sourceState1 w2
             = Returns (Some c, sourceState2) w3
           /\ sc_changeType c = modified
           /\ sc_previousHash c = Some []
           /\ sc_currentHash c = Some (ps_hash previous).
Proof.
  intros Hfetch.
  eexists _, _, _. split.
  { apply checkSingleSource_failure. exact Hfetch. }
  split.
  - rewrite lookup_insert_eq. reflexivity.
  - intros previous w2 status content _ Hsame Hfetch2.
    rewrite (checkSingleSource_success _ _ _ _ w2 status content Hfetch2).
    rewrite lookup_insert_eq. cbn [ps_hash ps_status].
    rewrite bool_decide_eq_false_2.
    + eexists _, _, _. split; [reflexivity|].
      rewrite Hsame. repeat split.
    + intros E. symmetry in E. exact (hashContent_nonempty content E).
Qed.

Lemma recovery_with_same_content_witness :
  exists (change1 : option SourceChange) (sourceState1 : gmap jsstring PageState) w1,
    checkSingleSource (js "example") (js "Example") docsPage seenState offlineWorld
      = Returns (change1, sourceState1) w1
    /\ ps_hash <$> sourceState1 !! wp_url docsPage = Some []
    /\ exists c sourceState2 w3,
         checkSingleSource (js "example") (js "Example") docsPage sourceState1
           firstSightWorld
           = Returns (Some c, sourceState2) w3
         /\ sc_changeType c = modified
         /\ sc_previousHash c = Some []
         /\ sc_currentHash c = Some (hashContent (js "<p>Hello</p>")).
Proof.
  destruct (recovery_with_same_content_is_modified
              (js "example") (js "Example") docsPage seenState offlineWorld
              eq_refl)
    as (change1 & sourceState1 & w1 & Hrun & Hstored & Hnext).
  exists change1, sourceState1, w1.
  split; [exact Hrun|]. split; [exact Hstored|].
  apply (Hnext (mkPageState (hashContent (js "<p>Hello</p>")) (ISO 1690000000000) 200)
               firstSightWorld 200 (js "<p>Hello</p>"));
    reflexivity.
Defined.

(** ** The analysis-service boundary *)

Lemma setClient_idem (w : World) : client w = true -> setClient true w = w.
Proof. destruct w; cbn. intros ->. reflexivity. Qed.

Lemma getClient_available (w : World) :
  clientAvailable w = true -> getClient w = Returns tt (setClient true w).
Proof.
  unfold clientAvailable, getClient. intros Hav.
  destruct (client w) eqn:Hc.
  - rewrite setClient_idem by exact Hc. reflexivity.
  - cbn in Hav. rewrite Hav. reflexivity.
Qed.

Section ServiceBoundary.

Context {T : Type} `{FromJSON T}.

(** A failing call is absorbed into a response with [success = false];
    one request is logged. *)
Lemma callLLM_failure (request : Request) (w : World) :
  clientAvailable w = true ->
  serviceFails T (service w (length (serviceCalls w))) = true ->
  exists message,
    callLLM (T:=T) request w
    = Returns (mkLLMResponse false None (Some message) None)
              (logServiceCall request (setClient true w)).
Proof.
  intros Hav Hfail. unfold callLLM, bind at 1.
  rewrite (getClient_available w Hav). run.
  change (service (setClient true w)) with (service w).
  change (serviceCalls (setClient true w)) with (serviceCalls w).
  unfold serviceFails in Hfail.
  destruct (service w (length (serviceCalls w))) as [e|content i o].
  { eexists. reflexivity. }
  cbn [fst snd].
  destruct (findTextBlock content) as [text|]; [|eexists; reflexivity].
  destruct (matchJsonObject text) as [jsonMatch|]; [|eexists; reflexivity].
  destruct (JSON_parse jsonMatch) as [message|d]; [|discriminate Hfail].
  eexists. reflexivity.
Qed.

(** A call that does not fail gives the parsed reply. *)
Lemma callLLM_success (request : Request) (w : World) (d : T) :
  clientAvailable w = true ->
  parsedReply T (service w (length (serviceCalls w))) = Some d ->
  exists u,
    callLLM (T:=T) request w
    = Returns (mkLLMResponse true (Some d) None (Some u))
              (logServiceCall request (setClient true w)).
Proof.
  intros Hav Hok. unfold callLLM, bind at 1.
  rewrite (getClient_available w Hav). run.
  change (service (setClient true w)) with (service w).
  change (serviceCalls (setClient true w)) with (serviceCalls w).
  unfold parsedReply in Hok.
  destruct (service w (length (serviceCalls w))) as [e|content i o];
    [discriminate Hok|].
  cbn [fst snd].
  destruct (findTextBlock content) as [text|]; [|discriminate Hok].
  destruct (matchJsonObject text) as [jsonMatch|]; [|discriminate Hok].
  destruct (JSON_parse jsonMatch) as [message|d']; [discriminate Hok|].
  injection Hok as ->. eexists. reflexivity.
Qed.

Lemma serviceFails_or_parsed (r : ApiResult) :
  serviceFails T r = true /\ parsedReply T r = None
  \/ exists d, serviceFails T r = false /\ parsedReply T r = Some d.
Proof.
  unfold serviceFails, parsedReply.
  destruct r as [e|content i o]; [left; split; reflexivity|].
  destruct (findTextBlock content) as [text|]; [|left; split; reflexivity].
  destruct (matchJsonObject text) as [jsonMatch|]; [|left; split; reflexivity].
  destruct (JSON_parse jsonMatch) as [message|d].
  - left; split; reflexivity.
  - right. exists d. split; reflexivity.
Qed.

(** Without a client and without a key, the call throws before any
    request is made. *)
Lemma callLLM_unconfigured (request : Request) (w : World) :
  clientAvailable w = false ->
  callLLM (T:=T) request w
  = Throws (ErrorObject (js "ANTHROPIC_API_KEY environment variable is required")) w.
Proof.
  unfold clientAvailable. intros Hav.
  apply orb_false_elim in Hav as [Hc Hk].
  unfold callLLM, bind at 1, getClient. rewrite Hc, Hk. reflexivity.
Qed.

End ServiceBoundary.

(** ** Stage 3: the decision *)

Lemma flat_map_nil_Forall {A B : Type} (f : A -> list B) (l : list A) :
  Forall (fun a => f a = []) l -> flat_map f l = [].
Proof.
  induction 1 as [|a l Ha _ IH]; cbn; [reflexivity|].
  rewrite Ha, IH. reflexivity.
Qed.

(** C4.  When no provider carries a change entry, [decideAction] returns
    the decision with action [none], no affected consumer and no detail,
    and leaves the world as it was: in particular no request reaches the
    analysis service, whatever the consumers' profiles. *)
Theorem decideAction_short_circuits_on_no_changes
  `{FromJSON EngineerOutput}
  (apiChanges : list ApiResearcherOutput)
  (mcpDependencies : list McpResearcherOutput) (w : World) :
  Forall (fun provider => aro_changes provider = []) apiChanges ->
  exists decision,
    decideAction apiChanges mcpDependencies w = Returns decision w
    /\ eo_action decision = none
    /\ eo_affectedMcps decision = []
    /\ eo_details decision = [].
Proof.
  intros Hempty. unfold decideAction.
  rewrite (flat_map_nil_Forall _ _ Hempty). cbn.
  exists noChangesDecision. repeat split.
Qed.

Lemma decideAction_short_circuit_witness :
  exists decision,
    @decideAction (rejectAll EngineerOutput)
      [mkApiResearcherOutput (js "Example") [] true] [weatherProfile; weatherProfile]
      (configuredWorld noService)
    = Returns decision (configuredWorld noService)
    /\ eo_action decision = none
    /\ eo_affectedMcps decision = []
    /\ eo_details decision = [].
Proof.
  apply (@decideAction_short_circuits_on_no_changes (rejectAll EngineerOutput)).
  repeat constructor.
Defined.

(** C5.  With at least one change entry and a client at hand, a failing
    call of the analysis service (transport error, no text in the reply,
    no JSON in the text, JSON that does not parse) makes [decideAction]
    return, and not throw, the fallback decision: its action is [notify]
    and its summary says that automated analysis failed and manual review
    is recommended. *)
Theorem decideAction_falls_back_to_notify
  `{FromJSON EngineerOutput}
  (apiChanges : list ApiResearcherOutput)
  (mcpDependencies : list McpResearcherOutput) (w : World) :
  flat_map aro_changes apiChanges <> [] ->
  clientAvailable w = true ->
  serviceFails EngineerOutput (service w (length (serviceCalls w))) = true ->
  exists decision w',
    decideAction apiChanges mcpDependencies w = Returns decision w'
    /\ eo_action decision = notify
    /\ eo_action decision <> none
    /\ eo_summary decision
       = numberToString (length (flat_map aro_changes apiChanges))
           ++ js " API change(s) detected but automated analysis failed. Manual review recommended.".
Proof.
  intros Hsome Hav Hfail. unfold decideAction.
  destruct (flat_map aro_changes apiChanges) as [|c rest] eqn:Hall;
    [contradiction|].
  cbn [length Nat.eqb]. unfold bind at 1.
  destruct (callLLM_failure (T:=EngineerOutput)
              (EngineerRequest apiChanges mcpDependencies) w Hav Hfail)
    as [message ->].
  cbn. eexists _, _. repeat split. discriminate.
Qed.

Lemma decideAction_fallback_witness :
  exists decision w',
    @decideAction (rejectAll EngineerOutput) exampleChanges [weatherProfile]
      (configuredWorld (answering (js "I could not decide.")))
    = Returns decision w'
    /\ eo_action decision = notify
    /\ eo_action decision <> none
    /\ eo_summary decision
       = js "1 API change(s) detected but automated analysis failed. Manual review recommended.".
Proof.
  apply (@decideAction_falls_back_to_notify (rejectAll EngineerOutput)
           exampleChanges [weatherProfile]
           (configuredWorld (answering (js "I could not decide.")))).
  - discriminate.
  - reflexivity.
  - reflexivity.
Defined.

(** With a client at hand [decideAction] always returns: whatever the
    service does, nothing is thrown. *)
Lemma decideAction_returns
  `{FromJSON EngineerOutput}
  (apiChanges : list ApiResearcherOutput)
  (mcpDependencies : list McpResearcherOutput) (w : World) :
  clientAvailable w = true ->
  exists decision w', decideAction apiChanges mcpDependencies w = Returns decision w'.
Proof.
  intros Hav. unfold decideAction.
  destruct (length (flat_map aro_changes apiChanges) =? 0)%nat;
    [eexists _, _; reflexivity|].
  unfold bind at 1.
  destruct (serviceFails_or_parsed (T:=EngineerOutput)
              (service w (length (serviceCalls w)))) as [[Hfail _]|[d [_ Hok]]].
  - destruct (callLLM_failure (T:=EngineerOutput)
                (EngineerRequest apiChanges mcpDependencies) w Hav Hfail)
      as [message ->].
    eexists _, _; reflexivity.
  - destruct (callLLM_success (T:=EngineerOutput)
                (EngineerRequest apiChanges mcpDependencies) w d Hav Hok)
      as [u ->].
    eexists _, _; reflexivity.
Qed.

Example decideAction_transport_error :
  returned (@decideAction (readAs noChangesDecision) exampleChanges [weatherProfile]
              (configuredWorld noService))
  = Some (mkEngineerOutput notify
            (js "1 API change(s) detected but automated analysis failed. Manual review recommended.")
            [] (js "Review API changes manually") []).
Proof. vm_compute. reflexivity. Qed.

(** ** Stage 2: the dependency cache *)

Example maxAge_is_thirty_days : maxAge = 2592000000%Z.
Proof. reflexivity. Qed.

Section DependencyCache.

Context `{FromJSON McpResearcherOutput}.
Variable mcpInfo : McpInfo.

(** After a cache miss the service is called once and its reply, or the
    fallback, is returned. *)
Lemma analyzeMcpDependencies_after_miss
      (cache : option (gmap jsstring CacheEntry)) (w w0 : World) :
  checkCache mcpInfo cache w = Returns None w0 ->
  clientAvailable w0 = true ->
  analyzeMcpDependencies mcpInfo cache w
  = Returns (recomputedProfile mcpInfo (service w0 (length (serviceCalls w0))))
            (logServiceCall (McpResearcherRequest mcpInfo) (setClient true w0)).
Proof.
  intros Hmiss Hav. unfold analyzeMcpDependencies, bind at 1.
  rewrite Hmiss. unfold bind at 1, recomputedProfile.
  destruct (serviceFails_or_parsed (T:=McpResearcherOutput)
              (service w0 (length (serviceCalls w0)))) as [[Hfail ->]|[d [_ Hok]]].
  - destruct (callLLM_failure (T:=McpResearcherOutput)
                (McpResearcherRequest mcpInfo) w0 Hav Hfail) as [message ->].
    reflexivity.
  - destruct (callLLM_success (T:=McpResearcherOutput)
                (McpResearcherRequest mcpInfo) w0 d Hav Hok) as [u ->].
    rewrite Hok. reflexivity.
Qed.

(** A fresh entry is returned as it is; only the clock was read. *)
Lemma analyzeMcpDependencies_hit
      (cache : gmap jsstring CacheEntry) (cached : CacheEntry) (stamp : Z)
      (w : World) :
  cache !! mi_name mcpInfo = Some cached ->
  ce_timestamp cached = ISO stamp ->
  (clock w (clockReads w) - stamp < maxAge)%Z ->
  analyzeMcpDependencies mcpInfo (Some cache) w
  = Returns (ce_data cached) (tickClock w).
Proof.
  intros Hentry Hstamp Hfresh.
  unfold analyzeMcpDependencies, checkCache. rewrite Hentry. run.
  rewrite Hstamp. cbn [getTime].
  apply Z.ltb_lt in Hfresh. rewrite Hfresh. reflexivity.
Qed.

Lemma checkCache_expired
      (cache : gmap jsstring CacheEntry) (cached : CacheEntry) (stamp : Z)
      (w : World) :
  cache !! mi_name mcpInfo = Some cached ->
  ce_timestamp cached = ISO stamp ->
  (clock w (clockReads w) - stamp >= maxAge)%Z ->
  checkCache mcpInfo (Some cache) w = Returns None (tickClock w).
Proof.
  intros Hentry Hstamp Hold.
  unfold checkCache. rewrite Hentry. run.
  rewrite Hstamp. cbn [getTime].
  assert ((clock w (clockReads w) - stamp <? maxAge)%Z = false) as ->
    by (apply Z.ltb_ge; lia).
  reflexivity.
Qed.

(** A timestamp that does not read as a date never counts as fresh. *)
Lemma checkCache_unreadable
      (cache : gmap jsstring CacheEntry) (cached : CacheEntry) (s : jsstring)
      (w : World) :
  cache !! mi_name mcpInfo = Some cached ->
  ce_timestamp cached = NotADate s ->
  checkCache mcpInfo (Some cache) w = Returns None (tickClock w).
Proof.
  intros Hentry Hstamp. unfold checkCache. rewrite Hentry. run.
  rewrite Hstamp. reflexivity.
Qed.

Lemma checkCache_absent (cache : gmap jsstring CacheEntry) (w : World) :
  cache !! mi_name mcpInfo = None ->
  checkCache mcpInfo (Some cache) w = Returns None w.
Proof. intros Hentry. unfold checkCache. rewrite Hentry. reflexivity. Qed.

End DependencyCache.

(** C2.  A profile cached at time [T] and looked up at time [T'] is returned
    as it is, with no request to the analysis service, when [T' - T] is
    below the window of thirty days.  When [T' - T] has reached the window,
    or when the consumer has no entry, the profile is computed anew: one
    request for this consumer reaches the service, and the result is built
    from its reply (or is the fallback when the call fails). *)
Theorem cached_profile_is_fresh_for_thirty_days
  `{FromJSON McpResearcherOutput} (mcpInfo : McpInfo) (w : World) :
  let now := clock w (clockReads w) in
  (forall cache cached stamp,
      cache !! mi_name mcpInfo = Some cached ->
      ce_timestamp cached = ISO stamp ->
      (now - stamp < 30 * 24 * 60 * 60 * 1000)%Z ->
      exists w',
        analyzeMcpDependencies mcpInfo (Some cache) w = Returns (ce_data cached) w'
        /\ serviceCalls w' = serviceCalls w)
  /\ (forall cache,
        clientAvailable w = true ->
        cache = None
        \/ (exists c, cache = Some c /\ c !! mi_name mcpInfo = None)
        \/ (exists c cached stamp,
              cache = Some c /\ c !! mi_name mcpInfo = Some cached
              /\ ce_timestamp cached = ISO stamp
              /\ (now - stamp >= 30 * 24 * 60 * 60 * 1000)%Z) ->
        exists result w',
          analyzeMcpDependencies mcpInfo cache w = Returns result w'
          /\ serviceCalls w' = serviceCalls w ++ [McpResearcherRequest mcpInfo]
          /\ result
             = recomputedProfile mcpInfo (service w (length (serviceCalls w)))).
Proof.
  intros now. split.
  - intros cache cached stamp Hentry Hstamp Hfresh.
    exists (tickClock w). split; [|reflexivity].
    apply (analyzeMcpDependencies_hit mcpInfo cache cached stamp w Hentry Hstamp).
    exact Hfresh.
  - intros cache Hav [->|[(c & -> & Hentry)|(c & cached & stamp & -> & Hentry & Hstamp & Hold)]].
    + eexists _, _. split; [|split].
      * apply (analyzeMcpDependencies_after_miss mcpInfo None w w);
          [reflexivity|exact Hav].
      * reflexivity.
      * reflexivity.
    + eexists _, _. split; [|split].
      * apply (analyzeMcpDependencies_after_miss mcpInfo (Some c) w w);
          [apply checkCache_absent; exact Hentry|exact Hav].
      * reflexivity.
      * reflexivity.
    + eexists _, _. split; [|split].
      * apply (analyzeMcpDependencies_after_miss mcpInfo (Some c) w (tickClock w));
          [apply (checkCache_expired mcpInfo c cached stamp w Hentry Hstamp);
           exact Hold
          |exact Hav].
      * reflexivity.
      * reflexivity.
Qed.

(** One day after the analysis the entry is served; thirty days after it,
    to the millisecond, the service is asked again. *)
Lemma cached_profile_witness :
  (exists w',
      @analyzeMcpDependencies (readAs weatherProfile) weatherMcp (Some julyCache)
        (worldAt (1690000000000 + oneDay) (answering (js "{}")))
      = Returns oldProfile w'
      /\ serviceCalls w' = [])
  /\ (exists result w',
        @analyzeMcpDependencies (readAs weatherProfile) weatherMcp (Some julyCache)
          (worldAt (1690000000000 + 30 * oneDay) (answering (js "{}")))
        = Returns result w'
        /\ serviceCalls w' = [McpResearcherRequest weatherMcp]
        /\ result = weatherProfile).
Proof.
  split.
  - apply (proj1 (@cached_profile_is_fresh_for_thirty_days (readAs weatherProfile)
                    weatherMcp
                    (worldAt (1690000000000 + oneDay) (answering (js "{}"))))
                 julyCache (mkCacheEntry oldProfile (ISO 1690000000000))
                 1690000000000%Z);
      reflexivity.
  - apply (proj2 (@cached_profile_is_fresh_for_thirty_days (readAs weatherProfile)
                    weatherMcp
                    (worldAt (1690000000000 + 30 * oneDay) (answering (js "{}"))))
                 (Some julyCache)).
    + reflexivity.
    + right. right.
      exists julyCache, (mkCacheEntry oldProfile (ISO 1690000000000)), 1690000000000%Z.
      repeat split. vm_compute. discriminate.
Defined.

(** What [analyzeAllMcps] does with the entry of a consumer whose cached
    profile is still fresh: the profile is served from the cache, and the
    entry is written again with the time of this run. *)
Lemma analyzeAllMcps_hit_restamps
  `{FromJSON McpResearcherOutput} (mcpInfo : McpInfo)
  (cache : gmap jsstring CacheEntry) (cached : CacheEntry) (stamp : Z) (w : World) :
  cache !! mi_name mcpInfo = Some cached ->
  ce_timestamp cached = ISO stamp ->
  (clock w (clockReads w) - stamp < maxAge)%Z ->
  analyzeAllMcps [mcpInfo] (Some cache) w
  = Returns ([ce_data cached],
             <[mi_name mcpInfo :=
                 mkCacheEntry (ce_data cached) (ISO (clock w (S (clockReads w))))]> cache)
            (tickClock (tickClock w)).
Proof.
  intros Hentry Hstamp Hfresh.
  unfold analyzeAllMcps, analyzeMcpsFrom, bind at 1.
  rewrite (analyzeMcpDependencies_hit mcpInfo cache cached stamp w Hentry Hstamp Hfresh).
  reflexivity.
Qed.

(** C3 (the code departs from the claim).  A run of [analyzeAllMcps] one
    day after the analysis of [mcp-weather] is answered from the cache, with
    no request to the service, and yet the stored entry is replaced: it
    keeps the profile of July and takes the timestamp of the run. *)
Theorem analyzeAllMcps_cache_hit_rewrites_timestamp :
  exists (updatedCache : gmap jsstring CacheEntry) w',
    @analyzeAllMcps (readAs weatherProfile) [weatherMcp] (Some julyCache)
      (tickingWorld (1690000000000 + oneDay) (answering (js "{}")))
    = Returns ([oldProfile], updatedCache) w'
    /\ serviceCalls w' = []
    /\ julyCache !! js "mcp-weather"
       = Some (mkCacheEntry oldProfile (ISO 1690000000000))
    /\ updatedCache !! js "mcp-weather"
       = Some (mkCacheEntry oldProfile (ISO 1690086400001)).
Proof.
  eexists _, _. split; [|split; [|split]].
  - apply (@analyzeAllMcps_hit_restamps (readAs weatherProfile) weatherMcp julyCache
             (mkCacheEntry oldProfile (ISO 1690000000000)) 1690000000000%Z);
      reflexivity.
  - reflexivity.
  - reflexivity.
  - rewrite lookup_insert_eq. reflexivity.
Qed.

(** The consequence: with a run every twenty-nine days the profile of July
    is still served fifty-eight days after it was computed, and the
    service is never asked. *)
Example stale_profile_outlives_the_window :
  exists (cache1 : gmap jsstring CacheEntry) w1 w2,
    @analyzeAllMcps (readAs weatherProfile) [weatherMcp] (Some julyCache)
      (tickingWorld (1690000000000 + 29 * oneDay) (answering (js "{}")))
    = Returns ([oldProfile], cache1) w1
    /\ @analyzeMcpDependencies (readAs weatherProfile) weatherMcp (Some cache1)
         (tickingWorld (1690000000000 + 58 * oneDay) (answering (js "{}")))
       = Returns oldProfile w2
    /\ serviceCalls w1 = [] /\ serviceCalls w2 = [].
Proof.
  eexists _, _, _. split; [|split; [|split]].
  - apply (@analyzeAllMcps_hit_restamps (readAs weatherProfile) weatherMcp julyCache
             (mkCacheEntry oldProfile (ISO 1690000000000)) 1690000000000%Z);
      reflexivity.
  - apply (@analyzeMcpDependencies_hit (readAs weatherProfile) weatherMcp _
             (mkCacheEntry oldProfile (ISO (1690000000000 + 29 * oneDay + 1)))
             (1690000000000 + 29 * oneDay + 1)%Z).
    + rewrite lookup_insert_eq. reflexivity.
    + reflexivity.
    + reflexivity.
  - reflexivity.
  - reflexivity.
Qed.

(** Entries of consumers that are not analysed in a run are kept as they
    are, and an analysed consumer's entry holds exactly the result returned
    for it: entries are replaced whole. *)
Lemma analyzeMcpsFrom_keeps_others
  `{FromJSON McpResearcherOutput} (mcps : list McpInfo)
  (cache : option (gmap jsstring CacheEntry)) (name : jsstring) :
  name ∉ map mi_name mcps ->
  forall results (updatedCache : gmap jsstring CacheEntry) w results' updatedCache' w',
    analyzeMcpsFrom mcps cache results updatedCache w
      = Returns (results', updatedCache') w' ->
    updatedCache' !! name = updatedCache !! name.
Proof.
  induction mcps as [|mcp rest IH]; intros Hnot results updatedCache w results'
                                          updatedCache' w' Hrun.
  - cbn in Hrun. injection Hrun as _ <- _. reflexivity.
  - cbn [map] in Hnot. apply not_elem_of_cons in Hnot as [Hne Hrest].
    cbn [analyzeMcpsFrom] in Hrun. unfold bind at 1 in Hrun.
    destruct (analyzeMcpDependencies mcp cache w) as [result w1|e w1];
      [|discriminate Hrun].
    unfold bind at 1, newDateISO, bind at 1, Date_now, ret in Hrun.
    rewrite (IH Hrest _ _ _ _ _ _ Hrun).
    apply lookup_insert_ne. congruence.
Qed.

(** ** Stage 1: merging the pages of a provider *)

Section FirstOccurrences.

Implicit Types (l prefix suffix : list ApiChange) (c x : ApiChange).












Lemma find_elem_of l c x :
  List.find (fun c' => sameTitle c' c) l = Some x -> x ∈ l.
Proof.
  induction l as [|a l IH]; cbn; [discriminate|].
  destruct (sameTitle a c).
  - intros [= ->]. apply elem_of_cons. left. reflexivity.
  - intros Hx. apply elem_of_cons. right. apply IH. exact Hx.
Qed.


End FirstOccurrences.

Section ProviderPages.

Context `{FromJSON ApiResearcherOutput}.
Variable provider : jsstring.





End ProviderPages.



(** ** The state store *)




(** ** Stability of the fingerprint *)

Section WhiteSpaceRuns.

Implicit Types (s a b w : jsstring).

Lemma matchWhiteSpaceRun_cons c s :
  matchWhiteSpaceRun (c :: s)
  = if isWhiteSpace c then Some (S (spanLength isWhiteSpace s)) else None.
Proof.
  unfold matchWhiteSpaceRun. cbn [spanLength].
  destruct (isWhiteSpace c); reflexivity.
Qed.

Lemma replaceAll_whitespace_collapse s :
  replaceGo matchWhiteSpaceRun (js " ") (spanLength isWhiteSpace s) s
  = collapseWs true s
  /\ replaceGo matchWhiteSpaceRun (js " ") O s = collapseWs false s.
Proof.
  change (js " ") with [32].
  induction s as [|c s [IHrun IHout]]; [split; reflexivity|].
  cbn [collapseWs replaceGo spanLength]. rewrite matchWhiteSpaceRun_cons.
  destruct (isWhiteSpace c).
  - rewrite IHrun. split; reflexivity.
  - rewrite IHout. split; reflexivity.
Qed.

Lemma collapse_is_collapseWs s :
  replaceAll matchWhiteSpaceRun (js " ") s = collapseWs false s.
Proof. apply replaceAll_whitespace_collapse. Qed.

Lemma endsInRun_cons inRun c a :
  endsInRun inRun (c :: a) = endsInRun (isWhiteSpace c) a.
Proof.
  unfold endsInRun. rewrite last_cons. destruct (last a); reflexivity.
Qed.

Lemma collapseWs_app inRun a b :
  collapseWs inRun (a ++ b)
  = collapseWs inRun a ++ collapseWs (endsInRun inRun a) b.
Proof.
  revert inRun. induction a as [|c a IH]; intros inRun; [reflexivity|].
  rewrite endsInRun_cons. cbn [app collapseWs].
  destruct (isWhiteSpace c).
  - destruct inRun; rewrite IH; reflexivity.
  - rewrite IH. reflexivity.
Qed.

Lemma collapseWs_run_true w : allWhiteSpace w = true -> collapseWs true w = [].
Proof.
  induction w as [|c w IH]; [reflexivity|]. cbn.
  intros [-> Hw]%andb_true_iff. apply IH. exact Hw.
Qed.

Lemma collapseWs_run inRun w :
  allWhiteSpace w = true -> w <> [] ->
  collapseWs inRun w = if inRun then [] else [32].
Proof.
  destruct w as [|c w]; [congruence|]. cbn.
  intros [-> Hw]%andb_true_iff _.
  rewrite (collapseWs_run_true w Hw). destruct inRun; reflexivity.
Qed.

Lemma endsInRun_run inRun w :
  allWhiteSpace w = true -> w <> [] -> endsInRun inRun w = true.
Proof.
  intros Hw Hne. unfold endsInRun.
  destruct (last w) as [c|] eqn:E.
  - apply last_Some_elem_of in E.
    unfold allWhiteSpace in Hw. rewrite forallb_forall in Hw.
    apply Hw. apply list_elem_of_In. exact E.
  - rewrite last_None in E. contradiction.
Qed.

(** The collapsed text does not depend on which run stands at a place,
    nor on its length. *)
Lemma collapseWs_run_irrelevant a w1 w2 b :
  allWhiteSpace w1 = true -> w1 <> [] ->
  allWhiteSpace w2 = true -> w2 <> [] ->
  collapseWs false (a ++ w1 ++ b) = collapseWs false (a ++ w2 ++ b).
Proof.
  intros H1 N1 H2 N2.
  rewrite !collapseWs_app.
  rewrite (collapseWs_run _ w1 H1 N1), (collapseWs_run _ w2 H2 N2).
  rewrite (endsInRun_run _ w1 H1 N1), (endsInRun_run _ w2 H2 N2).
  reflexivity.
Qed.

End WhiteSpaceRuns.

Section TimestampScan.

Implicit Types (s a b t A R S : jsstring) (p : list PatternUnit).

Lemma matchUnits_lookup p s i u :
  matchUnits p s = true -> p !! i = Some u ->
  exists c, s !! i = Some c /\ matchUnit u c = true.
Proof.
  revert s i. induction p as [|v p IH]; intros s i Hm Hu; [discriminate Hu|].
  destruct s as [|c s]; [discriminate Hm|].
  cbn in Hm. apply andb_true_iff in Hm as [Hc Hm].
  destruct i as [|i]; cbn in Hu |- *.
  - injection Hu as ->. exists c. split; [reflexivity|exact Hc].
  - apply (IH s i Hm Hu).
Qed.

Lemma matchUnits_app_long p s r :
  (length p <= length s)%nat -> matchUnits p (s ++ r) = matchUnits p s.
Proof.
  revert s. induction p as [|v p IH]; intros s Hlen; [reflexivity|].
  destruct s as [|c s]; cbn in Hlen; [lia|].
  cbn. rewrite IH by lia. reflexivity.
Qed.

Lemma matchUnits_short p s :
  (length s < length p)%nat -> matchUnits p s = false.
Proof.
  revert s. induction p as [|v p IH]; intros s Hlen; cbn in Hlen; [lia|].
  destruct s as [|c s]; [reflexivity|].
  cbn in *. rewrite IH by lia. apply andb_false_r.
Qed.

Lemma matchTimestamp_app_long s r :
  (19 <= length s)%nat -> matchTimestamp (s ++ r) = matchTimestamp s.
Proof.
  intros Hlen. unfold matchTimestamp.
  rewrite matchUnits_app_long by exact Hlen. reflexivity.
Qed.

Lemma matchTimestamp_short s : (length s < 19)%nat -> matchTimestamp s = None.
Proof.
  intros Hlen. unfold matchTimestamp.
  rewrite matchUnits_short by exact Hlen. reflexivity.
Qed.

Lemma matchTimestamp_cases s :
  matchTimestamp s = Some 19%nat \/ matchTimestamp s = None.
Proof.
  unfold matchTimestamp. destruct (matchUnits timestampPattern s); [left|right];
    reflexivity.
Qed.

(** The scan of a text [A] followed by [R] is the scan of [A] followed by
    the scan of [R], when no match starts in [A] and runs into [R]. *)
Lemma replaceGo_timestamp_app (rep : jsstring) A R :
  (forall S, S `suffix_of` A -> S <> [] -> (length S < 19)%nat ->
             matchTimestamp (S ++ R) = None) ->
  forall skip, (skip <= length A)%nat ->
  replaceGo matchTimestamp rep skip (A ++ R)
  = replaceGo matchTimestamp rep skip A ++ replaceGo matchTimestamp rep O R.
Proof.
  induction A as [|c A IH]; intros Hclear skip Hskip.
  - cbn in Hskip. assert (skip = O) as -> by lia. reflexivity.
  - assert (forall S, S `suffix_of` A -> S <> [] -> (length S < 19)%nat ->
                      matchTimestamp (S ++ R) = None) as Hclear'.
    { intros S HS. apply Hclear. apply suffix_cons_r. exact HS. }
    specialize (IH Hclear').
    cbn [app replaceGo]. cbn [length] in Hskip.
    destruct skip as [|k]; [|apply IH; lia].
    change (c :: A ++ R) with ((c :: A) ++ R).
    destruct (le_lt_dec 19 (length (c :: A))) as [Hlong|Hshort].
    + rewrite (matchTimestamp_app_long (c :: A) R Hlong).
      destruct (matchTimestamp_cases (c :: A)) as [-> | ->].
      * rewrite IH by (cbn [length] in Hlong; lia).
        rewrite app_assoc. reflexivity.
      * rewrite IH by lia. reflexivity.
    + rewrite (Hclear (c :: A)) by (reflexivity || discriminate || exact Hshort).
      rewrite (matchTimestamp_short (c :: A) Hshort).
      rewrite IH by lia. reflexivity.
Qed.

Lemma replaceGo_skip (matchAt : jsstring -> option nat) (rep : jsstring) s r :
  replaceGo matchAt rep (length s) (s ++ r) = replaceGo matchAt rep O r.
Proof.
  induction s as [|c s IH]; [|exact IH].
  cbn. destruct r; reflexivity.
Qed.

End TimestampScan.

Section TimestampOverlap.

Implicit Types (s a b t A B S : jsstring).

Lemma whitespace_not_digit_or_colon c :
  isWhiteSpace c = true -> isDigit c = false /\ c <> 58.
Proof.
  unfold isWhiteSpace, isDigit.
  rewrite !orb_true_iff, !andb_true_iff, andb_false_iff, !N.leb_le, !N.eqb_eq,
    !N.leb_gt.
  lia.
Qed.

Lemma overlapBlocked_all m :
  (1 <= m <= 18)%nat -> overlapBlocked m = true.
Proof.
  intros Hm.
  assert (forallb overlapBlocked (seq 1 18) = true) as Hall by reflexivity.
  rewrite forallb_forall in Hall. apply Hall. apply in_seq. lia.
Qed.

Lemma isTimestamp_spec t :
  isTimestamp t = true ->
  matchUnits timestampPattern t = true /\ length t = 19%nat.
Proof.
  unfold isTimestamp. intros [Hm Hl]%andb_true_iff.
  apply Nat.eqb_eq in Hl. split; [exact Hm|exact Hl].
Qed.

Lemma endsClear_last S c :
  endsClear S = true -> last S = Some c -> isDigit c = false /\ c <> 58.
Proof.
  unfold endsClear. intros He Hl. rewrite Hl in He.
  apply andb_true_iff in He as [Hd Hc].
  apply negb_true_iff in Hd. apply negb_true_iff, N.eqb_neq in Hc.
  split; assumption.
Qed.

(** No match starts in the last eighteen code units of a text that
    [endsClear] and runs into the timestamp that follows it. *)
Lemma no_match_into_timestamp S t B :
  isTimestamp t = true -> S <> [] -> (length S < 19)%nat ->
  endsClear S = true ->
  matchTimestamp (S ++ t ++ B) = None.
Proof.
  intros [Ht Hlen]%isTimestamp_spec Hne Hshort Hclear.
  unfold matchTimestamp.
  destruct (matchUnits timestampPattern (S ++ t ++ B)) eqn:Hmatch; [|reflexivity].
  exfalso.
  assert (1 <= length S <= 18)%nat as Hm.
  { destruct S; [contradiction|]. cbn [length] in *. lia. }
  pose proof (overlapBlocked_all _ Hm) as Hblocked.
  unfold overlapBlocked in Hblocked.
  destruct (timestampPattern !! (length S - 1)%nat) as [u|] eqn:Hu;
    [|discriminate Hblocked].
  destruct (matchUnits_lookup _ _ _ _ Hmatch Hu) as (c & Hc & Huc).
  rewrite lookup_app_l in Hc by lia.
  assert (last S = Some c) as Hlast.
  { rewrite last_lookup. rewrite <- Hc. f_equal. lia. }
  destruct (endsClear_last S c Hclear Hlast) as [Hnd Hnc].
  destruct u as [|l]; cbn in Huc; [congruence|].
  apply N.eqb_eq in Huc. subst l.
  apply orb_true_iff in Hblocked as [Hcolon|Hthird].
  { apply N.eqb_eq in Hcolon. contradiction. }
  destruct (timestampPattern !! (length S + 2)%nat) as [[|l']|] eqn:Hu';
    try discriminate Hthird.
  apply negb_true_iff in Hthird.
  destruct (matchUnits_lookup _ _ _ _ Hmatch Hu') as (d & Hd & Hud).
  rewrite lookup_app_r in Hd by lia.
  replace (length S + 2 - length S)%nat with 2%nat in Hd by lia.
  rewrite lookup_app_l in Hd by lia.
  destruct (matchUnits_lookup timestampPattern t 2 Digit Ht eq_refl)
    as (d' & Hd' & Hdigit).
  rewrite Hd in Hd'. injection Hd' as <-.
  cbn in Hud, Hdigit. apply N.eqb_eq in Hud. subst l'. congruence.
Qed.

Lemma endsClear_suffix S A :
  S `suffix_of` A -> S <> [] -> endsClear A = true -> endsClear S = true.
Proof.
  intros [k ->] Hne. unfold endsClear.
  rewrite last_app. destruct (last S) eqn:E; [tauto|].
  rewrite last_None in E. contradiction.
Qed.

(** Scanning through a timestamp that stands after a text that
    [endsClear]: the timestamp is replaced, whatever its digits. *)
Lemma replaceTimestamps_through A t B :
  isTimestamp t = true -> endsClear A = true ->
  replaceTimestamps (A ++ t ++ B)
  = replaceTimestamps A ++ js "[timestamp]" ++ replaceTimestamps B.
Proof.
  intros Ht Hclear. unfold replaceTimestamps, replaceAll.
  rewrite replaceGo_timestamp_app; [|
    intros S HS Hne Hshort;
    apply (no_match_into_timestamp S t B Ht Hne Hshort);
    apply (endsClear_suffix S A HS Hne Hclear) | lia].
  f_equal.
  destruct (isTimestamp_spec t Ht) as [Hm Hlen].
  destruct t as [|c t]; [discriminate Hlen|].
  cbn [app replaceGo].
  change (c :: t ++ B) with ((c :: t) ++ B).
  rewrite matchTimestamp_app_long by lia.
  unfold matchTimestamp at 1. rewrite Hm. cbn [length timestampPattern].
  f_equal.
  replace 18%nat with (length t) by (cbn [length] in Hlen; lia).
  apply replaceGo_skip.
Qed.

End TimestampOverlap.

Section Normalization.

Implicit Types (s a b t w X : jsstring).

Lemma normalizeForHash_unfold s :
  normalizeForHash s = trim (replaceTimestamps (collapseWs false s)).
Proof.
  unfold normalizeForHash, replaceTimestamps.
  rewrite collapse_is_collapseWs. reflexivity.
Qed.

(** *** Timestamps hold no whitespace *)

Lemma matchUnits_Forall (P : N -> Prop) p t :
  Forall (fun u => forall c, matchUnit u c = true -> P c) p ->
  matchUnits p t = true -> length t = length p -> Forall P t.
Proof.
  intros Hp. revert t. induction Hp as [|u p Hu _ IH]; intros t Hm Hlen.
  - destruct t; [constructor|discriminate Hlen].
  - destruct t as [|c t]; [discriminate Hlen|].
    cbn in Hm. apply andb_true_iff in Hm as [Hc Hm].
    constructor; [apply Hu; exact Hc|].
    apply IH; [exact Hm|]. cbn in Hlen. lia.
Qed.

Lemma digit_not_whitespace c : isDigit c = true -> isWhiteSpace c = false.
Proof.
  intros Hd. destruct (isWhiteSpace c) eqn:Hws; [|reflexivity].
  apply whitespace_not_digit_or_colon in Hws as [Hnd _]. congruence.
Qed.

Lemma timestamp_units_not_whitespace :
  Forall (fun u => forall c, matchUnit u c = true -> isWhiteSpace c = false)
         timestampPattern.
Proof.
  unfold timestampPattern.
  repeat (constructor;
          [intros c Hc;
           first [exact (digit_not_whitespace c Hc)
                 |apply N.eqb_eq in Hc; subst c; reflexivity]|]).
  constructor.
Qed.

Lemma timestamp_no_whitespace t :
  isTimestamp t = true -> Forall (fun c => isWhiteSpace c = false) t.
Proof.
  intros [Hm Hlen]%isTimestamp_spec.
  apply (matchUnits_Forall _ timestampPattern t timestamp_units_not_whitespace Hm).
  exact Hlen.
Qed.

Lemma collapseWs_no_whitespace inRun t :
  Forall (fun c => isWhiteSpace c = false) t -> collapseWs inRun t = t.
Proof.
  intros Ht. revert inRun. induction Ht as [|c t Hc _ IH]; intros inRun;
    [reflexivity|].
  cbn. rewrite Hc, IH. reflexivity.
Qed.

Lemma endsInRun_no_whitespace inRun t :
  Forall (fun c => isWhiteSpace c = false) t -> t <> [] ->
  endsInRun inRun t = false.
Proof.
  intros Ht Hne. unfold endsInRun.
  destruct (last t) as [c|] eqn:E.
  - apply last_Some_elem_of in E. rewrite Forall_forall in Ht.
    apply Ht. exact E.
  - rewrite last_None in E. contradiction.
Qed.

(** Collapsing whitespace keeps a timestamp where it is. *)
Lemma collapseWs_around_timestamp a t b :
  isTimestamp t = true ->
  collapseWs false (a ++ t ++ b)
  = collapseWs false a ++ t ++ collapseWs false b.
Proof.
  intros Ht. pose proof (timestamp_no_whitespace t Ht) as Hnw.
  assert (t <> []) as Hne.
  { apply isTimestamp_spec in Ht as [_ Hlen]. destruct t; [discriminate|congruence]. }
  rewrite !collapseWs_app.
  rewrite (collapseWs_no_whitespace _ t Hnw), (endsInRun_no_whitespace _ t Hnw Hne).
  reflexivity.
Qed.

Lemma endsClear_snoc a c :
  endsClear (a ++ [c]) = negb (isDigit c) && negb (c =? 58).
Proof. unfold endsClear. rewrite last_snoc. reflexivity. Qed.

Lemma endsInRun_true_endsClear inRun a :
  endsInRun inRun a = true -> endsClear a = true.
Proof.
  unfold endsInRun, endsClear. destruct (last a) as [c|]; [|reflexivity].
  intros [-> Hc]%whitespace_not_digit_or_colon.
  apply N.eqb_neq in Hc. rewrite Hc. reflexivity.
Qed.

Lemma endsClear_collapseWs inRun a :
  endsClear a = true -> endsClear (collapseWs inRun a) = true.
Proof.
  induction a as [|c a IH] using rev_ind; intros Hclear; [reflexivity|].
  rewrite collapseWs_app. cbn [collapseWs].
  destruct (isWhiteSpace c) eqn:Hws.
  - destruct (endsInRun inRun a) eqn:He.
    + rewrite app_nil_r. apply IH.
      apply (endsInRun_true_endsClear inRun a He).
    + rewrite endsClear_snoc. reflexivity.
  - rewrite endsClear_snoc. rewrite endsClear_snoc in Hclear. exact Hclear.
Qed.

(** *** Spaces at the ends *)

Lemma replaceTimestamps_space X :
  replaceTimestamps (32 :: X) = 32 :: replaceTimestamps X.
Proof. reflexivity. Qed.

Lemma no_unit_matches_space :
  Forall (fun u => matchUnit u 32 = false) timestampPattern.
Proof. repeat constructor. Qed.

Lemma no_match_into_space S R :
  (length S < 19)%nat -> matchTimestamp (S ++ 32 :: R) = None.
Proof.
  intros Hshort. unfold matchTimestamp.
  destruct (matchUnits timestampPattern (S ++ 32 :: R)) eqn:Hmatch; [|reflexivity].
  exfalso.
  destruct (lookup_lt_is_Some_2 timestampPattern (length S) Hshort) as [u Hu].
  destruct (matchUnits_lookup _ _ _ _ Hmatch Hu) as (c & Hc & Huc).
  rewrite list_lookup_middle in Hc by reflexivity. injection Hc as <-.
  pose proof no_unit_matches_space as Hall. rewrite Forall_lookup in Hall.
  rewrite (Hall _ _ Hu) in Huc. discriminate Huc.
Qed.

Lemma replaceTimestamps_snoc_space X :
  replaceTimestamps (X ++ [32]) = replaceTimestamps X ++ [32].
Proof.
  unfold replaceTimestamps, replaceAll.
  rewrite replaceGo_timestamp_app; [reflexivity| |lia].
  intros S _ _ Hshort. apply no_match_into_space. exact Hshort.
Qed.

Lemma trim_space s : trim (32 :: s) = trim s.
Proof. reflexivity. Qed.

Lemma trimStart_snoc_space s :
  trimStart (s ++ [32])
  = match trimStart s with [] => [] | _ => trimStart s ++ [32] end.
Proof.
  induction s as [|c s IH]; [reflexivity|].
  cbn. destruct (isWhiteSpace c); [exact IH|reflexivity].
Qed.

Lemma trimEnd_snoc_space s : trimEnd (s ++ [32]) = trimEnd s.
Proof. unfold trimEnd. rewrite rev_unit. reflexivity. Qed.

Lemma trim_snoc_space s : trim (s ++ [32]) = trim s.
Proof.
  unfold trim. rewrite trimStart_snoc_space.
  destruct (trimStart s) as [|c s'] eqn:E; [reflexivity|].
  apply trimEnd_snoc_space.
Qed.

Lemma collapseWs_either_way a :
  collapseWs false a = collapseWs true a
  \/ collapseWs false a = 32 :: collapseWs true a.
Proof.
  destruct a as [|c a]; [left; reflexivity|].
  cbn. destruct (isWhiteSpace c); [right|left]; reflexivity.
Qed.

(** *** The normalized text under the three edits *)

Lemma normalizeForHash_run a w1 w2 b :
  allWhiteSpace w1 = true -> w1 <> [] ->
  allWhiteSpace w2 = true -> w2 <> [] ->
  normalizeForHash (a ++ w1 ++ b) = normalizeForHash (a ++ w2 ++ b).
Proof.
  intros H1 N1 H2 N2. rewrite !normalizeForHash_unfold.
  rewrite (collapseWs_run_irrelevant a w1 w2 b H1 N1 H2 N2). reflexivity.
Qed.

Lemma normalizeForHash_leading w a :
  allWhiteSpace w = true -> normalizeForHash (w ++ a) = normalizeForHash a.
Proof.
  intros Hw. destruct (decide (w = [])) as [->|Hne]; [reflexivity|].
  rewrite !normalizeForHash_unfold, collapseWs_app.
  rewrite (collapseWs_run _ w Hw Hne), (endsInRun_run _ w Hw Hne).
  cbn [app]. rewrite replaceTimestamps_space, trim_space.
  destruct (collapseWs_either_way a) as [-> | ->]; [reflexivity|].
  rewrite replaceTimestamps_space, trim_space. reflexivity.
Qed.

Lemma normalizeForHash_trailing a w :
  allWhiteSpace w = true -> normalizeForHash (a ++ w) = normalizeForHash a.
Proof.
  intros Hw. destruct (decide (w = [])) as [->|Hne];
    [rewrite app_nil_r; reflexivity|].
  rewrite !normalizeForHash_unfold, collapseWs_app.
  rewrite (collapseWs_run _ w Hw Hne).
  destruct (endsInRun false a); [rewrite app_nil_r; reflexivity|].
  rewrite replaceTimestamps_snoc_space, trim_snoc_space. reflexivity.
Qed.

Lemma normalizeForHash_timestamp a t1 t2 b :
  isTimestamp t1 = true -> isTimestamp t2 = true -> endsClear a = true ->
  normalizeForHash (a ++ t1 ++ b) = normalizeForHash (a ++ t2 ++ b).
Proof.
  intros H1 H2 Hclear. rewrite !normalizeForHash_unfold.
  rewrite (collapseWs_around_timestamp a t1 b H1),
    (collapseWs_around_timestamp a t2 b H2).
  pose proof (endsClear_collapseWs false a Hclear) as Hclear'.
  rewrite (replaceTimestamps_through _ t1 _ H1 Hclear'),
    (replaceTimestamps_through _ t2 _ H2 Hclear').
  reflexivity.
Qed.

End Normalization.

(** The example of the specification: only the rendered date differs. *)
Example hashContent_updated_stamp :
  hashContent (js "Updated: 2024-01-01T10:00:00")
  = hashContent (js "Updated: 2024-06-02T11:30:00").
Proof. vm_compute. reflexivity. Qed.

Example normalizeForHash_sample :
  normalizeForHash (js "  Updated:   2024-01-01T10:00:00  ")
  = js "Updated: [timestamp]".
Proof. vm_compute. reflexivity. Qed.

(** C6 (as stated, refuted).  [ab] and [a b] differ only in whitespace and
    have different fingerprints.  The second pair of contents is the same
    text but for one timestamp replaced by another, and has different
    fingerprints too: the text before the timestamp ends in the first
    eighteen code units of a timestamp, so the scan matches across the
    boundary and leaves the differing digits behind. *)
Lemma hashContent_not_stable_under_every_edit :
  (withoutWhiteSpace (js "ab") = withoutWhiteSpace (js "a b")
   /\ hashContent (js "ab") <> hashContent (js "a b"))
  /\ (isTimestamp (js "1111-11-11T11:11:11") = true
      /\ isTimestamp (js "2222-22-22T22:22:22") = true
      /\ normalizeForHash (js "2024-01-01T10:00:0" ++ js "1111-11-11T11:11:11")
         = js "[timestamp]111-11-11T11:11:11"
      /\ normalizeForHash (js "2024-01-01T10:00:0" ++ js "2222-22-22T22:22:22")
         = js "[timestamp]222-22-22T22:22:22"
      /\ hashContent (js "2024-01-01T10:00:0" ++ js "1111-11-11T11:11:11")
         <> hashContent (js "2024-01-01T10:00:0" ++ js "2222-22-22T22:22:22")).
Proof.
  split; [split|split; [|split; [|split; [|split]]]];
    try (vm_compute; reflexivity);
    intros E; vm_compute in E; discriminate E.
Qed.

(** C6 (amended).  The fingerprint is a function of the content alone.  It
    does not change when a non-empty run of whitespace is replaced by
    another non-empty run of whitespace, nor when whitespace is added or
    removed at the start or at the end of the content.  It does not change
    when a substring that matches the timestamp pattern is replaced by
    another one, provided the text before it does not end in a digit or a
    colon. *)
Theorem hashContent_stable :
  (forall x y : jsstring, x = y -> hashContent x = hashContent y)
  /\ (forall a w1 w2 b : jsstring,
        allWhiteSpace w1 = true -> w1 <> [] ->
        allWhiteSpace w2 = true -> w2 <> [] ->
        hashContent (a ++ w1 ++ b) = hashContent (a ++ w2 ++ b))
  /\ (forall w a : jsstring,
        allWhiteSpace w = true -> hashContent (w ++ a) = hashContent a)
  /\ (forall a w : jsstring,
        allWhiteSpace w = true -> hashContent (a ++ w) = hashContent a)
  /\ (forall a t1 t2 b : jsstring,
        isTimestamp t1 = true -> isTimestamp t2 = true -> endsClear a = true ->
        hashContent (a ++ t1 ++ b) = hashContent (a ++ t2 ++ b)).
Proof.
  unfold hashContent. split; [|split; [|split; [|split]]].
  - intros x y ->. reflexivity.
  - intros a w1 w2 b H1 N1 H2 N2.
    rewrite (normalizeForHash_run a w1 w2 b H1 N1 H2 N2). reflexivity.
  - intros w a Hw. rewrite (normalizeForHash_leading w a Hw). reflexivity.
  - intros a w Hw. rewrite (normalizeForHash_trailing a w Hw). reflexivity.
  - intros a t1 t2 b H1 H2 Hclear.
    rewrite (normalizeForHash_timestamp a t1 t2 b H1 H2 Hclear). reflexivity.
Qed.

Lemma hashContent_stable_witness :
  hashContent (js "Updated: " ++ js "2024-01-01T10:00:00" ++ js " (v2)")
  = hashContent (js "Updated: " ++ js "2024-06-02T11:30:00" ++ js " (v2)")
  /\ hashContent (js "a" ++ [32; 10; 9] ++ js "b") = hashContent (js "a" ++ [160] ++ js "b")
  /\ hashContent ([10; 32] ++ js "a b") = hashContent (js "a b")
  /\ hashContent (js "a b" ++ [13; 10]) = hashContent (js "a b").
Proof.
  destruct hashContent_stable as (_ & Hrun & Hlead & Htrail & Hstamp).
  split; [|split; [|split]].
  - apply Hstamp; reflexivity.
  - apply Hrun; (reflexivity || discriminate).
  - apply Hlead; reflexivity.
  - apply Htrail; reflexivity.
Defined.

(** ** Grouping the changes by provider *)

Section Grouping.

Implicit Types (grouped : list (jsstring * ProviderGroup)) (key k : jsstring).

Lemma mapGet_app {V : Type} key (m1 m2 : list (jsstring * V)) :
  mapGet key (m1 ++ m2)
  = match mapGet key m1 with Some v => Some v | None => mapGet key m2 end.
Proof.
  induction m1 as [|[k v] m1 IH]; [reflexivity|].
  cbn. destruct (bool_decide (k = key)); [reflexivity|exact IH].
Qed.

Lemma mapGet_pushPage key k page grouped :
  mapGet k (pushPage key page grouped)
  = if bool_decide (k = key)
    then (fun g => mkProviderGroup (grp_name g) (grp_pages g ++ [page]))
           <$> mapGet k grouped
    else mapGet k grouped.
Proof.
  induction grouped as [|[k' g] grouped IH]; cbn.
  - destruct (bool_decide (k = key)); reflexivity.
  - destruct (bool_decide (k' = key)) eqn:Hk'; cbn.
    + apply bool_decide_eq_true in Hk'. subst k'.
      destruct (bool_decide (key = k)) eqn:Hk.
      * apply bool_decide_eq_true in Hk. subst k.
        rewrite bool_decide_eq_true_2 by reflexivity. reflexivity.
      * apply bool_decide_eq_false in Hk.
        rewrite bool_decide_eq_false_2 by congruence. reflexivity.
    + apply bool_decide_eq_false in Hk'.
      destruct (bool_decide (k' = k)) eqn:Hk.
      * apply bool_decide_eq_true in Hk. subst k'.
        rewrite bool_decide_eq_false_2 by congruence. reflexivity.
      * exact IH.
Qed.

Lemma map_fst_pushPage key page grouped :
  map fst (pushPage key page grouped) = map fst grouped.
Proof.
  induction grouped as [|[k g] grouped IH]; [reflexivity|].
  cbn. destruct (bool_decide (k = key)); cbn; [reflexivity|].
  rewrite IH. reflexivity.
Qed.

Lemma mapGet_None_not_in {V : Type} key (m : list (jsstring * V)) :
  mapGet key m = None <-> key ∉ map fst m.
Proof.
  induction m as [|[k v] m IH]; cbn.
  - split; [intros _; apply not_elem_of_nil|reflexivity].
  - rewrite not_elem_of_cons.
    destruct (bool_decide (k = key)) eqn:Hk.
    + apply bool_decide_eq_true in Hk. split; [discriminate|]. intros [Hne _].
      congruence.
    + apply bool_decide_eq_false in Hk. rewrite IH. split.
      * intros Hm. split; [congruence|exact Hm].
      * intros [_ Hm]. exact Hm.
Qed.

(** What one change does to the entry of a key. *)
Lemma mapGet_groupChange key grouped change :
  mapGet key (groupChange grouped change)
  = match truthyContent change with
    | Some content =>
        if bool_decide (sc_apiKey change = key) then
          Some (match mapGet key grouped with
                | Some g => mkProviderGroup (grp_name g)
                              (grp_pages g ++ [mkPage (sc_url change) content])
                | None => mkProviderGroup (sc_apiName change)
                            [mkPage (sc_url change) content]
                end)
        else mapGet key grouped
    | None => mapGet key grouped
    end.
Proof.
  unfold groupChange. destruct (truthyContent change) as [content|]; [|reflexivity].
  rewrite mapGet_pushPage. unfold mapHas.
  destruct (bool_decide (sc_apiKey change = key)) eqn:Hk.
  - apply bool_decide_eq_true in Hk. subst key.
    rewrite bool_decide_eq_true_2 by reflexivity.
    destruct (mapGet (sc_apiKey change) grouped) as [g|] eqn:Hg.
    + rewrite Hg. reflexivity.
    + rewrite mapGet_app, Hg. cbn.
      rewrite bool_decide_eq_true_2 by reflexivity. reflexivity.
  - apply bool_decide_eq_false in Hk.
    rewrite bool_decide_eq_false_2 by congruence.
    destruct (mapGet (sc_apiKey change) grouped); [reflexivity|].
    rewrite mapGet_app. cbn.
    rewrite bool_decide_eq_false_2 by exact Hk.
    destruct (mapGet key grouped); reflexivity.
Qed.

Lemma NoDup_groupChange grouped change :
  NoDup (map fst grouped) -> NoDup (map fst (groupChange grouped change)).
Proof.
  intros Hnd. unfold groupChange.
  destruct (truthyContent change) as [content|]; [|exact Hnd].
  rewrite map_fst_pushPage. unfold mapHas.
  destruct (mapGet (sc_apiKey change) grouped) eqn:Hg; [exact Hnd|].
  rewrite map_app. cbn. apply NoDup_app. split; [exact Hnd|]. split.
  - intros k Hk Hk'. apply list_elem_of_singleton in Hk'. subst k.
    apply mapGet_None_not_in in Hg. contradiction.
  - apply NoDup_singleton.
Qed.

Lemma pagesFor_snoc key changes change :
  pagesFor key (changes ++ [change])
  = pagesFor key changes
    ++ match truthyContent change with
       | Some content =>
           if bool_decide (sc_apiKey change = key)
           then [mkPage (sc_url change) content] else []
       | None => []
       end.
Proof.
  unfold pagesFor. rewrite flat_map_app. cbn. rewrite app_nil_r. reflexivity.
Qed.

(** The pages kept under a key are exactly the content-carrying changes of
    that key, in order; a key with no such change has no entry. *)
Lemma grp_pages_groupChangesByProvider key changes :
  grp_pages <$> mapGet key (groupChangesByProvider changes)
  = match pagesFor key changes with
    | [] => None
    | pages => Some pages
    end.
Proof.
  unfold groupChangesByProvider.
  induction changes as [|change changes IH] using rev_ind; [reflexivity|].
  rewrite fold_left_app, pagesFor_snoc. cbn [fold_left].
  rewrite mapGet_groupChange.
  destruct (truthyContent change) as [content|];
    [|rewrite app_nil_r; exact IH].
  destruct (bool_decide (sc_apiKey change = key));
    [|rewrite app_nil_r; exact IH].
  destruct (mapGet key (fold_left groupChange changes [])) as [g|];
    cbn in IH |- *.
  - destruct (pagesFor key changes) as [|p ps]; [discriminate IH|].
    injection IH as ->. reflexivity.
  - destruct (pagesFor key changes) as [|p ps]; [reflexivity|discriminate IH].
Qed.

Lemma NoDup_groupChangesByProvider changes :
  NoDup (map fst (groupChangesByProvider changes)).
Proof.
  unfold groupChangesByProvider.
  induction changes as [|change changes IH] using rev_ind; [constructor|].
  rewrite fold_left_app. cbn. apply NoDup_groupChange. exact IH.
Qed.

End Grouping.

Lemma find_snoc {A : Type} (p : A -> bool) (l : list A) (x : A) :
  List.find p (l ++ [x])
  = match List.find p l with
    | Some y => Some y
    | None => if p x then Some x else None
    end.
Proof.
  induction l as [|a l IH]; cbn; [reflexivity|].
  destruct (p a); [reflexivity|exact IH].
Qed.

Lemma grp_name_groupChangesByProvider (key : jsstring) (changes : list SourceChange) :
  grp_name <$> mapGet key (groupChangesByProvider changes) = nameFor key changes.
Proof.
  unfold groupChangesByProvider, nameFor.
  induction changes as [|change changes IH] using rev_ind; [reflexivity|].
  rewrite fold_left_app, find_snoc. cbn [fold_left].
  rewrite mapGet_groupChange.
  destruct (truthyContent change) as [content|].
  - destruct (bool_decide (sc_apiKey change = key)).
    + destruct (mapGet key (fold_left groupChange changes [])) as [g|];
        cbn in IH |- *.
      * destruct (List.find _ changes); [exact IH|discriminate IH].
      * destruct (List.find _ changes); [discriminate IH|reflexivity].
    + rewrite IH. destruct (List.find _ changes); reflexivity.
  - rewrite IH. destruct (List.find _ changes); reflexivity.
Qed.

(** X1.  [groupChangesByProvider] keeps, under each provider key, exactly
    the pages of the changes of that key that carry content, in the order of
    the changes, under the display name of the first of them; a key with no
    such change has no entry, and no key is entered twice. *)
Theorem groupChangesByProvider_groups_pages_by_key
  (changes : list SourceChange) (key : jsstring) :
  mapGet key (groupChangesByProvider changes)
  = match pagesFor key changes, nameFor key changes with
    | page :: pages, Some name => Some (mkProviderGroup name (page :: pages))
    | _, _ => None
    end
  /\ NoDup (map fst (groupChangesByProvider changes)).
Proof.
  split; [|apply NoDup_groupChangesByProvider].
  pose proof (grp_pages_groupChangesByProvider key changes) as Hpages.
  pose proof (grp_name_groupChangesByProvider key changes) as Hname.
  destruct (mapGet key (groupChangesByProvider changes)) as [[name pages]|];
    cbn in Hpages, Hname.
  - rewrite <- Hname. destruct (pagesFor key changes) as [|p ps];
      [discriminate Hpages|].
    injection Hpages as ->. reflexivity.
  - destruct (pagesFor key changes) as [|p ps]; [reflexivity|discriminate Hpages].
Qed.

Example groupChangesByProvider_sample :
  groupChangesByProvider sampleChanges
  = [ (js "smhi",
       mkProviderGroup (js "SMHI")
         [ mkPage (js "https://smhi.example/news") (js "Sunset of v1");
           mkPage (js "https://smhi.example/docs") (js "Welcome") ]) ].
Proof. vm_compute. reflexivity. Qed.

Lemma groupChange_no_content grouped change :
  truthyContent change = None -> groupChange grouped change = grouped.
Proof. unfold groupChange. intros ->. reflexivity. Qed.

Lemma pagesFor_content key changes page :
  page ∈ pagesFor key changes -> pg_content page <> [].
Proof.
  unfold pagesFor. intros Hin. apply list_elem_of_In, in_flat_map in Hin.
  destruct Hin as (change & _ & Hpage).
  unfold truthyContent in Hpage.
  destruct (sc_content change) as [content|]; [|destruct Hpage].
  destruct content as [|c content]; cbn in Hpage; [destruct Hpage|].
  destruct (bool_decide (sc_apiKey change = key)); [|destruct Hpage].
  destruct Hpage as [<-|[]]. discriminate.
Qed.

(** X2.  A change without content, be it an outage or a page whose
    extracted text is empty, is left out of the groups: removing it from the
    list changes nothing, every page of every group has a non-empty content,
    and when no change carries content there is no group at all. *)
Theorem groupChangesByProvider_skips_changes_without_content
  (before after : list SourceChange) (change : SourceChange) :
  (truthyContent change = None ->
   groupChangesByProvider (before ++ change :: after)
   = groupChangesByProvider (before ++ after))
  /\ (forall key group page,
        mapGet key (groupChangesByProvider (before ++ after)) = Some group ->
        page ∈ grp_pages group -> pg_content page <> [])
  /\ (Forall (fun c => truthyContent c = None) (before ++ after) ->
      groupChangesByProvider (before ++ after) = []).
Proof.
  split; [|split].
  - intros Hnone. unfold groupChangesByProvider.
    rewrite !fold_left_app. cbn [fold_left].
    rewrite (groupChange_no_content _ _ Hnone). reflexivity.
  - intros key group page Hget Hin.
    pose proof (grp_pages_groupChangesByProvider key (before ++ after)) as Hpages.
    rewrite Hget in Hpages. cbn in Hpages.
    apply (pagesFor_content key (before ++ after) page).
    destruct (pagesFor key (before ++ after)) as [|p ps]; [discriminate Hpages|].
    injection Hpages as <-. exact Hin.
  - unfold groupChangesByProvider. generalize (@nil (jsstring * ProviderGroup)).
    intros grouped Hall. revert grouped.
    induction Hall as [|c rest Hc _ IH]; intros grouped; [reflexivity|].
    cbn [fold_left]. rewrite (groupChange_no_content _ _ Hc). apply IH.
Qed.

Lemma groupChangesByProvider_skips_witness :
  groupChangesByProvider sampleChanges
  = groupChangesByProvider (firstn 1 sampleChanges ++ skipn 2 sampleChanges).
Proof.
  exact (proj1 (groupChangesByProvider_skips_changes_without_content
                  (firstn 1 sampleChanges) (skipn 2 sampleChanges)
                  (mkSourceChange (js "sgu") (js "SGU") (js "https://sgu.example/docs")
                     (js "Docs") unavailable None None None (Some 200) (Some 0)))
               eq_refl).
Defined.

(** ** The whole check of the sources *)









Lemma elem_of_configuredPages (sources : list (jsstring * SourceEntry))
      (key : jsstring) (page : WebPageEntry) :
  (key, page) ∈ configuredPages sources
  <-> exists source, (key, source) ∈ sources /\ page ∈ src_web_pages source.
Proof.
  unfold configuredPages. rewrite list_elem_of_In, in_flat_map. split.
  - intros ([k source] & Hin & Hpage). cbn in Hpage.
    apply in_map_iff in Hpage as (p & [= <- <-] & Hp).
    exists source. split; apply list_elem_of_In; assumption.
  - intros (source & Hin & Hpage). exists (key, source).
    split; [apply list_elem_of_In; exact Hin|].
    cbn. apply in_map_iff. exists page. split; [reflexivity|].
    apply list_elem_of_In. exact Hpage.
Qed.




Section CheckSources.

Context `{PathModule} `{FromYAML SourceConfig} `{FromJSON CheckState}
        `{ToJSON CheckState}.
Variables (configDir stateDir : jsstring).

Let configPath := path_join configDir (js "sources.yaml").
Let statePath := path_join stateDir (js "last-check.json").


End CheckSources.








(** X6.  When the configuration file is missing or does not parse,
    [checkSources] throws and leaves the world as it was: nothing is
    fetched and the state file is not written. *)
Theorem checkSources_without_configuration_throws
  `{PathModule} `{FromYAML SourceConfig} `{FromJSON CheckState} `{ToJSON CheckState}
  (configDir stateDir : jsstring) (w : World) :
  files w !! path_join configDir (js "sources.yaml") = None
  \/ (exists text message,
        files w !! path_join configDir (js "sources.yaml") = Some text
        /\ YAML_parse text = inl message) ->
  exists e, checkSources configDir stateDir w = Throws e w.
Proof.
  unfold checkSources, loadSourceConfig, bind, readFile.
  intros [->|(text & message & -> & ->)]; eexists; reflexivity.
Qed.

Lemma checkSources_without_configuration_witness :
  exists e,
    @checkSources joinWithSlash (yamlReadAs twoProviders) (rejectAll CheckState)
      stringifyEmptyState (js "config") (js "state") offlineWorld
    = Throws e offlineWorld.
Proof.
  apply (@checkSources_without_configuration_throws joinWithSlash
           (yamlReadAs twoProviders) (rejectAll CheckState) stringifyEmptyState
           (js "config") (js "state") offlineWorld).
  left. reflexivity.
Defined.

(** *** A cycle over unchanged pages *)







(** ** The boundary of the analysis service, once more *)

(** X9.  With a client at hand [callLLM] never throws: it sends exactly one
    request and returns either the parsed reply, with [success] set and no
    error, or an error message, with [success] unset and no data.  With no
    client and no key it throws before any request is sent and leaves the
    world as it was. *)
Theorem callLLM_returns_data_or_error
  {T : Type} `{FromJSON T} (request : Request) (w : World) :
  (clientAvailable w = true ->
   exists response,
     callLLM (T:=T) request w
     = Returns response (logServiceCall request (setClient true w))
     /\ ((success response = true
          /\ data response = parsedReply T (service w (length (serviceCalls w)))
          /\ is_Some (data response) /\ error response = None)
         \/ (success response = false
             /\ serviceFails T (service w (length (serviceCalls w))) = true
             /\ data response = None /\ is_Some (error response))))
  /\ (clientAvailable w = false ->
      callLLM (T:=T) request w
      = Throws (ErrorObject (js "ANTHROPIC_API_KEY environment variable is required"))
               w).
Proof.
  split; [|apply callLLM_unconfigured].
  intros Hav.
  destruct (serviceFails_or_parsed (T:=T) (service w (length (serviceCalls w))))
    as [[Hfail _]|[d [_ Hok]]].
  - destruct (callLLM_failure request w Hav Hfail) as [message ->].
    eexists. split; [reflexivity|]. right. cbn.
    repeat split; [exact Hfail|]. eexists. reflexivity.
  - destruct (callLLM_success request w d Hav Hok) as [u ->].
    eexists. split; [reflexivity|]. left. cbn. rewrite Hok.
    repeat split. eexists. reflexivity.
Qed.

Lemma callLLM_data_or_error_witness :
  exists response,
    @callLLM EngineerOutput (rejectAll EngineerOutput)
      (EngineerRequest exampleChanges [weatherProfile])
      (configuredWorld (answering (js "{ not json }")))
    = Returns response
        (logServiceCall (EngineerRequest exampleChanges [weatherProfile])
           (setClient true (configuredWorld (answering (js "{ not json }")))))
    /\ success response = false /\ data response = None.
Proof.
  destruct (proj1 (@callLLM_returns_data_or_error EngineerOutput
                     (rejectAll EngineerOutput)
                     (EngineerRequest exampleChanges [weatherProfile])
                     (configuredWorld (answering (js "{ not json }")))) eq_refl)
    as (response & Hrun & [(Hs & _)|(Hs & _ & Hd & _)]).
  - exfalso. apply (f_equal returned) in Hrun. vm_compute in Hrun.
    injection Hrun as <-. discriminate Hs.
  - exists response. split; [exact Hrun|]. split; assumption.
Defined.

Section JsonObjectMatch.

Implicit Types (s pre post body text : jsstring).

Lemma indexOf_Some c s i :
  indexOf c s = Some i ->
  exists pre post, s = pre ++ c :: post /\ (c ∉ pre) /\ length pre = i.
Proof.
  revert i. induction s as [|x s IH]; intros i Hi; cbn in Hi; [discriminate|].
  destruct (N.eqb_spec x c) as [->|Hne].
  - injection Hi as <-. exists [], s. repeat split. apply not_elem_of_nil.
  - destruct (indexOf c s) as [j|]; [|discriminate].
    injection Hi as <-.
    destruct (IH j eq_refl) as (pre & post & -> & Hpre & Hlen).
    exists (x :: pre), post. split; [reflexivity|]. split.
    + apply not_elem_of_cons. split; [congruence|exact Hpre].
    + cbn. rewrite Hlen. reflexivity.
Qed.

Lemma indexOf_first c pre post :
  c ∉ pre -> indexOf c (pre ++ c :: post) = Some (length pre).
Proof.
  induction pre as [|x pre IH]; intros Hpre; cbn.
  - rewrite N.eqb_refl. reflexivity.
  - apply not_elem_of_cons in Hpre as [Hne Hpre].
    destruct (N.eqb_spec x c) as [->|_]; [congruence|].
    rewrite (IH Hpre). reflexivity.
Qed.

Lemma not_elem_of_rev c s : c ∉ s -> c ∉ rev s.
Proof.
  intros Hs Hin. apply Hs. apply list_elem_of_In, in_rev, list_elem_of_In, Hin.
Qed.

Lemma lastIndexOf_Some c s j :
  lastIndexOf c s = Some j ->
  exists body post, s = body ++ c :: post /\ (c ∉ post) /\ length body = j.
Proof.
  unfold lastIndexOf. destruct (indexOf c (rev s)) as [k|] eqn:Hk; [|discriminate].
  cbn. intros [= <-].
  destruct (indexOf_Some c (rev s) k Hk) as (pre & post & Hs & Hpre & Hlen).
  apply (f_equal (@rev N)) in Hs. rewrite rev_involutive in Hs.
  rewrite rev_app_distr in Hs. cbn in Hs. rewrite <- app_assoc in Hs. cbn in Hs.
  exists (rev post), (rev pre). split; [exact Hs|]. split.
  - apply not_elem_of_rev, Hpre.
  - rewrite Hs, length_app. cbn. rewrite !length_rev. lia.
Qed.

Lemma lastIndexOf_last c body post :
  c ∉ post -> lastIndexOf c (body ++ c :: post) = Some (length body).
Proof.
  intros Hpost. unfold lastIndexOf.
  rewrite rev_app_distr. cbn. rewrite <- app_assoc. cbn.
  rewrite indexOf_first by apply not_elem_of_rev, Hpost.
  cbn. f_equal. rewrite length_app. cbn. rewrite length_rev. lia.
Qed.

Lemma skipn_past_cons pre c post :
  skipn (S (length pre)) (pre ++ c :: post) = post.
Proof. induction pre as [|x pre IH]; [reflexivity|exact IH]. Qed.

Lemma firstn_through_cons pre c post :
  firstn (S (length pre)) (pre ++ c :: post) = pre ++ [c].
Proof.
  induction pre as [|x pre IH]; [reflexivity|].
  cbn [length app]. rewrite firstn_cons, IH. reflexivity.
Qed.

End JsonObjectMatch.

(** X10.  The text handed to [JSON.parse] runs from the first opening brace
    of the reply to its last closing brace: [matchJsonObject] finds [m]
    exactly when the reply splits into a part without opening brace, [m]
    itself, which starts and ends with a brace, and a part without closing
    brace.  There is no match when no closing brace follows the first
    opening one. *)
Theorem matchJsonObject_spans_first_to_last_brace (text m : jsstring) :
  matchJsonObject text = Some m
  <-> exists pre body post,
        text = pre ++ 123 :: body ++ 125 :: post
        /\ (123 ∉ pre) /\ (125 ∉ post)
        /\ m = 123 :: body ++ [125].
Proof.
  unfold matchJsonObject. split.
  - destruct (indexOf 123 text) as [i|] eqn:Hi; [|discriminate].
    destruct (indexOf_Some 123 text i Hi) as (pre & rest & -> & Hpre & <-).
    rewrite skipn_past_cons.
    destruct (lastIndexOf 125 rest) as [j|] eqn:Hj; [|discriminate].
    destruct (lastIndexOf_Some 125 rest j Hj) as (body & post & -> & Hpost & <-).
    intros [= <-]. exists pre, body, post.
    rewrite firstn_through_cons. repeat split; assumption.
  - intros (pre & body & post & -> & Hpre & Hpost & ->).
    rewrite (indexOf_first 123 pre _ Hpre), skipn_past_cons.
    rewrite (lastIndexOf_last 125 body post Hpost), firstn_through_cons.
    reflexivity.
Qed.

Example matchJsonObject_joins_two_objects :
  matchJsonObject (js "first {a} then {b} done") = Some (js "{a} then {b}").
Proof. vm_compute. reflexivity. Qed.

(** ** Stage 1, page by page *)

Section PageAnalysis.

Context `{FromJSON ApiResearcherOutput}.
Variables (provider pageUrl pageContent : jsstring).

Let request : Request :=
  ApiResearcherRequest provider pageUrl (slicePrefix (N.to_nat 15000) pageContent).

(** The run of [analyzeApiChanges], by what the service gave. *)
Lemma analyzeApiChanges_run (w : World) :
  clientAvailable w = true ->
  analyzeApiChanges provider pageUrl pageContent w
  = Returns
      (match parsedReply ApiResearcherOutput (service w (length (serviceCalls w))) with
       | None => emptyApiResearcherOutput provider
       | Some d =>
           let changes :=
             map (fun change =>
                    mkApiChange (ac_title change) (ac_summary change)
                      (ac_type change) (ac_relevance change)
                      (if truthy (ac_sourceUrl change) then ac_sourceUrl change
                       else pageUrl)
                      (ac_date change))
                 (aro_changes d) in
           mkApiResearcherOutput provider changes
             (aro_noChangesDetected d || (length changes =? 0)%nat)
       end)
      (logServiceCall request (setClient true w)).
Proof.
  intros Hav. unfold analyzeApiChanges, bind at 1.
  destruct (serviceFails_or_parsed (T:=ApiResearcherOutput)
              (service w (length (serviceCalls w)))) as [[Hfail ->]|[d [_ Hok]]].
  - destruct (callLLM_failure (T:=ApiResearcherOutput) request w Hav Hfail)
      as [message Hcall].
    unfold request in Hcall. rewrite Hcall. reflexivity.
  - destruct (callLLM_success (T:=ApiResearcherOutput) request w d Hav Hok)
      as [u Hcall].
    unfold request in Hcall. rewrite Hcall, Hok. reflexivity.
Qed.

End PageAnalysis.

(** X11.  When the call of the analysis service fails, [analyzeApiChanges]
    does not throw: it returns the provider's name with no change entry and
    [noChangesDetected] set. *)
Theorem analyzeApiChanges_falls_back_to_no_changes
  `{FromJSON ApiResearcherOutput} (provider pageUrl pageContent : jsstring)
  (w : World) :
  clientAvailable w = true ->
  serviceFails ApiResearcherOutput (service w (length (serviceCalls w))) = true ->
  exists w',
    analyzeApiChanges provider pageUrl pageContent w
    = Returns (mkApiResearcherOutput provider [] true) w'.
Proof.
  intros Hav Hfail. rewrite (analyzeApiChanges_run _ _ _ w Hav).
  destruct (serviceFails_or_parsed (T:=ApiResearcherOutput)
              (service w (length (serviceCalls w)))) as [[_ ->]|[d [Hok _]]];
    [|congruence].
  eexists. reflexivity.
Qed.

Lemma analyzeApiChanges_fallback_witness :
  exists w',
    @analyzeApiChanges (rejectAll ApiResearcherOutput) (js "Example")
      (js "https://example.org/news") (js "<p>News</p>")
      (configuredWorld noService)
    = Returns (mkApiResearcherOutput (js "Example") [] true) w'.
Proof.
  apply (@analyzeApiChanges_falls_back_to_no_changes (rejectAll ApiResearcherOutput));
    reflexivity.
Defined.





(** ** The dependency profiles, once more *)

Section DependencyProfiles.

Context `{FromJSON McpResearcherOutput}.

(** The cache check always returns; it reads the clock at most once and
    touches nothing else, and it only ever yields the data of the
    consumer's own entry. *)
Lemma checkCache_returns
  (mcpInfo : McpInfo) (cache : option (gmap jsstring CacheEntry)) (w : World) :
  exists hit w0,
    checkCache mcpInfo cache w = Returns hit w0
    /\ (w0 = w \/ w0 = tickClock w)
    /\ (forall d, hit = Some d ->
          exists c cached stamp,
            cache = Some c /\ c !! mi_name mcpInfo = Some cached
            /\ ce_timestamp cached = ISO stamp
            /\ (clock w (clockReads w) - stamp < maxAge)%Z
            /\ d = ce_data cached).
Proof.
  unfold checkCache. destruct cache as [c|].
  - destruct (c !! mi_name mcpInfo) as [cached|] eqn:Hentry.
    + unfold bind, Date_now.
      destruct (ce_timestamp cached) as [stamp|s] eqn:Hstamp; cbn [getTime].
      * destruct (Z.ltb_spec (clock w (clockReads w) - stamp) maxAge) as [Hlt|Hge].
        -- eexists _, _. split; [reflexivity|]. split; [right; reflexivity|].
           intros d [= <-]. exists c, cached, stamp. repeat split; assumption.
        -- eexists _, _. split; [reflexivity|]. split; [right; reflexivity|].
           intros d [=].
      * eexists _, _. split; [reflexivity|]. split; [right; reflexivity|].
        intros d [=].
    + eexists _, _. split; [reflexivity|]. split; [left; reflexivity|].
      intros d [=].
  - eexists _, _. split; [reflexivity|]. split; [left; reflexivity|].
    intros d [=].
Qed.

Lemma mro_mcp_recomputedProfile (mcpInfo : McpInfo) (r : ApiResult) :
  mro_mcp (recomputedProfile mcpInfo r) = mi_name mcpInfo.
Proof.
  unfold recomputedProfile.
  destruct (parsedReply McpResearcherOutput r); reflexivity.
Qed.

(** The run of [analyzeMcpDependencies]: an answer from the cache without
    any request, or one request and the recomputed profile. *)
Lemma analyzeMcpDependencies_returns
  (mcpInfo : McpInfo) (cache : option (gmap jsstring CacheEntry)) (w : World) :
  clientAvailable w = true ->
  exists result w',
    analyzeMcpDependencies mcpInfo cache w = Returns result w'
    /\ clientAvailable w' = true
    /\ (serviceCalls w' = serviceCalls w
        /\ (exists c cached stamp,
               cache = Some c /\ c !! mi_name mcpInfo = Some cached
               /\ ce_timestamp cached = ISO stamp
               /\ (clock w (clockReads w) - stamp < maxAge)%Z
               /\ result = ce_data cached)
        \/ serviceCalls w' = serviceCalls w ++ [McpResearcherRequest mcpInfo]
           /\ result
              = recomputedProfile mcpInfo (service w (length (serviceCalls w)))).
Proof.
  intros Hav.
  destruct (checkCache_returns mcpInfo cache w) as (hit & w0 & Hcheck & Hw0 & Hhit).
  destruct hit as [d|].
  - exists d, w0. unfold analyzeMcpDependencies, bind. rewrite Hcheck.
    split; [reflexivity|].
    split; [destruct Hw0 as [->| ->]; exact Hav|].
    left. split; [destruct Hw0 as [->| ->]; reflexivity|].
    apply Hhit. reflexivity.
  - assert (Hav0 : clientAvailable w0 = true)
      by (destruct Hw0 as [->| ->]; exact Hav).
    rewrite (analyzeMcpDependencies_after_miss mcpInfo cache w w0 Hcheck Hav0).
    eexists _, _. split; [reflexivity|].
    split; [reflexivity|]. right.
    destruct Hw0 as [->| ->]; split; reflexivity.
Qed.

(** The loop of [analyzeAllMcps], from any point of its run. *)
Lemma analyzeMcpsFrom_spec
  (cache : option (gmap jsstring CacheEntry)) (mcps : list McpInfo) :
  forall (results0 : list McpResearcherOutput)
         (cache0 : gmap jsstring CacheEntry) (w : World),
  clientAvailable w = true ->
  exists results updatedCache w' asked,
    analyzeMcpsFrom mcps cache results0 cache0 w
    = Returns (results0 ++ results, updatedCache) w'
    /\ clientAvailable w' = true
    /\ length results = length mcps
    /\ asked `sublist_of` mcps
    /\ (cache = None -> asked = mcps)
    /\ serviceCalls w' = serviceCalls w ++ map McpResearcherRequest asked
    /\ (forall name,
          name ∉ map mi_name mcps -> updatedCache !! name = cache0 !! name)
    /\ (forall i mcp,
          mcps !! i = Some mcp ->
          mi_name mcp ∉ map mi_name (drop (S i) mcps) ->
          exists entry t,
            updatedCache !! mi_name mcp = Some entry
            /\ results !! i = Some (ce_data entry)
            /\ ce_timestamp entry = ISO t)
    /\ (forall i mcp r,
          mcps !! i = Some mcp -> results !! i = Some r ->
          mro_mcp r = mi_name mcp
          \/ exists c cached,
               cache = Some c /\ c !! mi_name mcp = Some cached
               /\ r = ce_data cached).
Proof.
  induction mcps as [|mcp rest IH]; intros results0 cache0 w Hav.
  - exists [], cache0, w, []. cbn. rewrite !app_nil_r.
    repeat split; try done.
  - destruct (analyzeMcpDependencies_returns mcp cache w Hav)
      as (result & w1 & Hrun & Hav1 & Hcalls).
    destruct (IH (results0 ++ [result])
                 (<[mi_name mcp :=
                      mkCacheEntry result (ISO (clock w1 (clockReads w1)))]> cache0)
                 (tickClock w1) Hav1)
      as (results & updatedCache & w' & asked & Hrest & Hav' & Hlen & Hsub & Hall
          & Hcalls' & Hkeep & Hentry & Hnames).
    assert (Hasked :
              exists asked',
                asked' `sublist_of` mcp :: rest
                /\ (cache = None -> asked' = mcp :: rest)
                /\ serviceCalls w'
                   = serviceCalls w ++ map McpResearcherRequest asked').
    { rewrite Hcalls'. cbn [serviceCalls tickClock].
      destruct Hcalls as [(-> & c & cached & stamp & Hc & _)|(-> & _)].
      - exists asked. split; [apply sublist_cons, Hsub|].
        split; [congruence|reflexivity].
      - exists (mcp :: asked). split; [apply sublist_skip, Hsub|].
        split; [intros Hnone; rewrite (Hall Hnone); reflexivity|].
        rewrite <- app_assoc. reflexivity. }
    destruct Hasked as (asked' & Hsub' & Hall' & Hcalls'').
    exists (result :: results), updatedCache, w', asked'.
    split.
    { cbn [analyzeMcpsFrom]. unfold bind at 1. rewrite Hrun.
      unfold bind at 1, newDateISO, bind, Date_now, ret.
      rewrite Hrest, <- app_assoc. reflexivity. }
    split; [exact Hav'|].
    split; [cbn; rewrite Hlen; reflexivity|].
    split; [exact Hsub'|].
    split; [exact Hall'|].
    split; [exact Hcalls''|].
    split.
    { intros name Hname. cbn in Hname.
      apply not_elem_of_cons in Hname as [Hne Hname].
      rewrite (Hkeep name Hname), lookup_insert_ne by congruence. reflexivity. }
    split.
    { intros [|i] mcp' Hlookup Hlast.
      - injection Hlookup as <-. cbn in Hlast.
        rewrite (Hkeep _ Hlast), lookup_insert_eq.
        eexists _, _. repeat split.
      - cbn in Hlookup, Hlast. apply (Hentry i mcp' Hlookup Hlast). }
    intros [|i] mcp' r Hlookup Hr.
    + injection Hlookup as <-. injection Hr as <-.
      destruct Hcalls as [(_ & c & cached & stamp & Hc & Hcached & _ & _ & ->)|(_ & ->)].
      * right. exists c, cached. repeat split; assumption.
      * left. apply mro_mcp_recomputedProfile.
    + apply (Hnames i mcp' r Hlookup Hr).
Qed.

End DependencyProfiles.

(** X14.  With a client at hand [analyzeMcpDependencies] always returns.
    Either it answers from the cache, with the data of the consumer's own
    entry, younger than thirty days, and without any request; or it sends
    exactly one request, for this consumer, and returns a profile under the
    consumer's name, whatever name the reply gives: with the dependencies and
    the purpose of the reply or, when the call failed, with one critical
    dependency without endpoints per discovered API and the use case, or
    [Unknown], as purpose. *)
Theorem analyzeMcpDependencies_answers_from_cache_or_asks_once
  `{FromJSON McpResearcherOutput} (mcpInfo : McpInfo)
  (cache : option (gmap jsstring CacheEntry)) (w : World) :
  clientAvailable w = true ->
  exists result w',
    analyzeMcpDependencies mcpInfo cache w = Returns result w'
    /\ (serviceCalls w' = serviceCalls w
        /\ (exists c cached stamp,
               cache = Some c /\ c !! mi_name mcpInfo = Some cached
               /\ ce_timestamp cached = ISO stamp
               /\ (clock w (clockReads w) - stamp < maxAge)%Z
               /\ result = ce_data cached)
        \/ serviceCalls w' = serviceCalls w ++ [McpResearcherRequest mcpInfo]
           /\ mro_mcp result = mi_name mcpInfo
           /\ match parsedReply McpResearcherOutput
                      (service w (length (serviceCalls w))) with
              | Some d =>
                  mro_uses result = mro_uses d
                  /\ mro_purpose result = mro_purpose d
              | None =>
                  mro_uses result
                  = map (fun api => mkMcpDependency (api_name api) [] true)
                        (mi_upstreamApis mcpInfo)
                  /\ mro_purpose result
                     = (if truthy (mi_useCase mcpInfo) then mi_useCase mcpInfo
                        else js "Unknown")
              end).
Proof.
  intros Hav.
  destruct (analyzeMcpDependencies_returns mcpInfo cache w Hav)
    as (result & w' & Hrun & _ & [Hhit|(Hcalls & ->)]).
  - exists result, w'. split; [exact Hrun|]. left. exact Hhit.
  - eexists _, w'. split; [exact Hrun|]. right.
    split; [exact Hcalls|]. split; [apply mro_mcp_recomputedProfile|].
    unfold recomputedProfile.
    destruct (parsedReply McpResearcherOutput (service w (length (serviceCalls w))));
      split; reflexivity.
Qed.

Lemma analyzeMcpDependencies_own_name_witness :
  exists result w',
    @analyzeMcpDependencies (readAs misnamedProfile) weatherMcp None
      (configuredWorld (answering (js "{}")))
    = Returns result w'
    /\ serviceCalls w' = [McpResearcherRequest weatherMcp]
    /\ mro_mcp result = js "mcp-weather"
    /\ mro_uses result = mro_uses misnamedProfile.
Proof.
  destruct (@analyzeMcpDependencies_answers_from_cache_or_asks_once
              (readAs misnamedProfile) weatherMcp None
              (configuredWorld (answering (js "{}"))) eq_refl)
    as (result & w' & Hrun & [(_ & c & cached & stamp & Hc & _)|(Hcalls & Hname & Hreply)]).
  - discriminate Hc.
  - exists result, w'. split; [exact Hrun|]. split; [exact Hcalls|].
    split; [exact Hname|]. exact (proj1 Hreply).
Defined.

(** X15.  With a client at hand [analyzeAllMcps] returns one profile per
    consumer, in the order of the consumers.  It sends requests only for
    consumers of the list, in their order and at most one for each, and one
    for every consumer when it is given no cache.  In the cache it returns,
    the entries of the names that are not in the list are those of the cache
    it was given, and the last consumer of each name has an entry that holds
    the profile returned for it, with a readable timestamp. *)
Theorem analyzeAllMcps_gives_one_profile_per_consumer
  `{FromJSON McpResearcherOutput} (mcps : list McpInfo)
  (cache : option (gmap jsstring CacheEntry)) (w : World) :
  clientAvailable w = true ->
  exists results updatedCache w' asked,
    analyzeAllMcps mcps cache w = Returns (results, updatedCache) w'
    /\ length results = length mcps
    /\ asked `sublist_of` mcps
    /\ (cache = None -> asked = mcps)
    /\ serviceCalls w' = serviceCalls w ++ map McpResearcherRequest asked
    /\ (forall name,
          name ∉ map mi_name mcps ->
          updatedCache !! name = default ∅ cache !! name)
    /\ (forall i mcp,
          mcps !! i = Some mcp ->
          mi_name mcp ∉ map mi_name (drop (S i) mcps) ->
          exists entry t,
            updatedCache !! mi_name mcp = Some entry
            /\ results !! i = Some (ce_data entry)
            /\ ce_timestamp entry = ISO t).
Proof.
  intros Hav. unfold analyzeAllMcps.
  destruct (analyzeMcpsFrom_spec cache mcps [] (default ∅ cache) w Hav)
    as (results & updatedCache & w' & asked & Hrun & _ & Hlen & Hsub & Hall
        & Hcalls & Hkeep & Hentry & _).
  exists results, updatedCache, w', asked. repeat split; assumption.
Qed.

Lemma analyzeAllMcps_one_profile_witness :
  exists results updatedCache w',
    @analyzeAllMcps (readAs misnamedProfile) [weatherMcp; geologyMcp]
      (Some julyCache) (worldAt (1690000000000 + oneDay) (answering (js "{}")))
    = Returns (results, updatedCache) w'
    /\ length results = 2%nat
    /\ updatedCache !! js "some-other-server" = None
    /\ exists entry,
         updatedCache !! js "mcp-geology" = Some entry
         /\ results !! 1%nat = Some (ce_data entry).
Proof.
  destruct (@analyzeAllMcps_gives_one_profile_per_consumer
              (readAs misnamedProfile) [weatherMcp; geologyMcp] (Some julyCache)
              (worldAt (1690000000000 + oneDay) (answering (js "{}"))) eq_refl)
    as (results & updatedCache & w' & asked & Hrun & Hlen & _ & _ & _ & Hkeep & Hentry).
  exists results, updatedCache, w'. split; [exact Hrun|]. split; [exact Hlen|].
  split.
  - rewrite Hkeep; [reflexivity|].
    cbn. intros Hin. apply elem_of_cons in Hin as [E|Hin]; [discriminate E|].
    apply elem_of_cons in Hin as [E|Hin]; [discriminate E|].
    exact (not_elem_of_nil _ Hin).
  - destruct (Hentry 1%nat geologyMcp eq_refl) as (entry & t & Hget & Hres & _).
    + cbn. apply not_elem_of_nil.
    + exists entry. split; assumption.
Defined.

(** X16.  With at least one change entry, [decideAction] hands back the
    decision the service's reply parses to as it is, whatever its action,
    after exactly one request that carries the changes and the profiles;
    and with no client and no API key it throws, where with no change entry
    it would have returned. *)
Theorem decideAction_returns_the_reply_as_it_is
  `{FromJSON EngineerOutput} (apiChanges : list ApiResearcherOutput)
  (mcpDependencies : list McpResearcherOutput) (w : World) :
  flat_map aro_changes apiChanges <> [] ->
  (forall d,
      clientAvailable w = true ->
      parsedReply EngineerOutput (service w (length (serviceCalls w))) = Some d ->
      decideAction apiChanges mcpDependencies w
      = Returns d (logServiceCall (EngineerRequest apiChanges mcpDependencies)
                     (setClient true w)))
  /\ (clientAvailable w = false ->
      decideAction apiChanges mcpDependencies w
      = Throws (ErrorObject (js "ANTHROPIC_API_KEY environment variable is required"))
               w).
Proof.
  intros Hsome. unfold decideAction.
  destruct (flat_map aro_changes apiChanges) as [|c rest]; [contradiction|].
  cbn [length Nat.eqb]. split.
  - intros d Hav Hok. unfold bind at 1.
    destruct (callLLM_success (T:=EngineerOutput)
                (EngineerRequest apiChanges mcpDependencies) w d Hav Hok)
      as [u ->].
    reflexivity.
  - intros Hno. unfold bind at 1.
    rewrite (callLLM_unconfigured (T:=EngineerOutput)
               (EngineerRequest apiChanges mcpDependencies) w Hno).
    reflexivity.
Qed.

Lemma decideAction_reply_witness :
  returned (@decideAction (readAs quietDecision) exampleChanges [weatherProfile]
              (configuredWorld (answering (js "{}"))))
  = Some quietDecision
  /\ returned (@decideAction (readAs quietDecision) exampleChanges [weatherProfile]
                 (freshWorld None (fun _ => 0%Z) noNetwork (answering (js "{}"))))
     = None.
Proof.
  destruct (@decideAction_returns_the_reply_as_it_is (readAs quietDecision)
              exampleChanges [weatherProfile]
              (configuredWorld (answering (js "{}")))) as [Hreply _];
    [discriminate|].
  destruct (@decideAction_returns_the_reply_as_it_is (readAs quietDecision)
              exampleChanges [weatherProfile]
              (freshWorld None (fun _ => 0%Z) noNetwork (answering (js "{}"))))
    as [_ Hthrows]; [discriminate|].
  rewrite (Hreply quietDecision eq_refl eq_refl), (Hthrows eq_refl).
  split; reflexivity.
Defined.

(** ** The shape of a fingerprint *)

Lemma hexDigit_isLowerHex (x : N) : isLowerHex (Sha256.hexDigit x) = true.
Proof.
  unfold Sha256.hexDigit, isLowerHex.
  assert (Hd : N.land x 15 < 16).
  { change 15 with (N.ones 4). rewrite N.land_ones. apply N.mod_lt. discriminate. }
  destruct (N.ltb_spec (N.land x 15) 10) as [Hlt|Hge].
  - apply orb_true_iff. left. apply andb_true_iff. split; apply N.leb_le; lia.
  - apply orb_true_iff. right. apply andb_true_iff. split; apply N.leb_le; lia.
Qed.

Lemma hex32_isLowerHex (x : N) : Forall (fun c => isLowerHex c = true) (Sha256.hex32 x).
Proof. unfold Sha256.hex32. repeat constructor; apply hexDigit_isLowerHex. Qed.

(** X17.  A fingerprint is sixteen lowercase hexadecimal digits, whatever
    the content; in particular it is never the empty hash that a failed
    fetch records. *)
Theorem hashContent_is_sixteen_hex_digits (content : jsstring) :
  length (hashContent content) = 16%nat
  /\ Forall (fun c => isLowerHex c = true) (hashContent content)
  /\ hashContent content <> [].
Proof.
  split; [apply hashContent_length|].
  split; [|apply hashContent_nonempty].
  unfold hashContent, slicePrefix, Sha256.digestHex, Sha256.hexOfState.
  apply Forall_take.
  repeat (apply Forall_app; split); apply hex32_isLowerHex.
Qed.

(** ** The shape of the extracted text *)

Section TextShape.

Implicit Types (s t : jsstring) (c : N).

Lemma trimStart_space s : trimStart (32 :: s) = trimStart s.
Proof. reflexivity. Qed.

Lemma trimStart_collapseWs inRun s :
  trimStart (collapseWs inRun s) = collapseWs false (trimStart s).
Proof.
  revert inRun. induction s as [|c s IH]; intros inRun; [reflexivity|].
  cbn [collapseWs trimStart]. destruct (isWhiteSpace c) eqn:Hc.
  - destruct inRun; [apply IH|]. rewrite trimStart_space. apply IH.
  - cbn [trimStart collapseWs]. rewrite Hc. reflexivity.
Qed.

Lemma trimStart_head s c t : trimStart s = c :: t -> isWhiteSpace c = false.
Proof.
  induction s as [|x s IH]; cbn; [discriminate|].
  destruct (isWhiteSpace x) eqn:Hx; [exact IH|].
  intros [= <- _]. exact Hx.
Qed.

Lemma trimStart_allWhiteSpace s : allWhiteSpace s = true -> trimStart s = [].
Proof.
  induction s as [|x s IH]; [reflexivity|]. cbn.
  intros [-> Hs]%andb_true_iff. apply IH, Hs.
Qed.

Lemma trimStart_snoc s c :
  trimStart (s ++ [c])
  = if allWhiteSpace s then trimStart [c] else trimStart s ++ [c].
Proof.
  induction s as [|x s IH]; [reflexivity|].
  cbn [app trimStart allWhiteSpace forallb].
  destruct (isWhiteSpace x); [exact IH|reflexivity].
Qed.

Lemma allWhiteSpace_rev s : allWhiteSpace (rev s) = allWhiteSpace s.
Proof.
  unfold allWhiteSpace. induction s as [|x s IH]; [reflexivity|].
  cbn [rev forallb]. rewrite forallb_app, IH. cbn [forallb].
  rewrite andb_true_r. apply andb_comm.
Qed.

Lemma trimEnd_cons c s :
  trimEnd (c :: s) = if allWhiteSpace (c :: s) then [] else c :: trimEnd s.
Proof.
  unfold trimEnd. cbn [rev]. rewrite trimStart_snoc, allWhiteSpace_rev.
  change (allWhiteSpace (c :: s)) with (isWhiteSpace c && allWhiteSpace s).
  destruct (allWhiteSpace s) eqn:Hs.
  - rewrite (trimStart_allWhiteSpace (rev s))
      by (rewrite allWhiteSpace_rev; exact Hs).
    cbn [trimStart]. rewrite andb_true_r.
    destruct (isWhiteSpace c); reflexivity.
  - rewrite andb_false_r, rev_app_distr. reflexivity.
Qed.

Lemma collapseWs_true_head s :
  match collapseWs true s with
  | d :: _ => isWhiteSpace d = false
  | [] => True
  end.
Proof.
  induction s as [|c s IH]; [exact I|].
  cbn [collapseWs]. destruct (isWhiteSpace c) eqn:Hc; [exact IH|exact Hc].
Qed.

Lemma spacedFrom_trimEnd_collapseWs s :
  forall inRun, spacedFrom (negb inRun) (trimEnd (collapseWs inRun s)) = true.
Proof.
  induction s as [|c s IH]; intros inRun; [reflexivity|].
  cbn [collapseWs]. destruct (isWhiteSpace c) eqn:Hc.
  - destruct inRun; [apply IH|].
    rewrite trimEnd_cons.
    change (allWhiteSpace (32 :: collapseWs true s))
      with (allWhiteSpace (collapseWs true s)).
    pose proof (IH true) as Hrest. pose proof (collapseWs_true_head s) as Hhead.
    destruct (collapseWs true s) as [|d rest]; [reflexivity|].
    change (allWhiteSpace (d :: rest)) with (isWhiteSpace d && allWhiteSpace rest).
    rewrite Hhead. cbn [andb negb].
    rewrite trimEnd_cons in Hrest |- *.
    change (allWhiteSpace (d :: rest))
      with (isWhiteSpace d && allWhiteSpace rest) in Hrest |- *.
    rewrite Hhead in Hrest |- *. cbn [andb negb] in Hrest |- *.
    change (spacedFrom true (32 :: d :: trimEnd rest))
      with (negb (isWhiteSpace d) && spacedFrom false (d :: trimEnd rest)).
    rewrite Hhead, Hrest. reflexivity.
  - rewrite trimEnd_cons.
    change (allWhiteSpace (c :: collapseWs false s))
      with (isWhiteSpace c && allWhiteSpace (collapseWs false s)).
    rewrite Hc. cbn [andb spacedFrom]. rewrite Hc. apply (IH false).
Qed.

Lemma singleSpaced_trim_collapseWs s :
  singleSpaced (trim (collapseWs false s)) = true.
Proof.
  unfold singleSpaced, trim. rewrite trimStart_collapseWs.
  destruct (trimStart s) as [|c t] eqn:E; [reflexivity|].
  pose proof (trimStart_head s c t E) as Hc.
  cbn [collapseWs]. rewrite Hc, trimEnd_cons.
  change (allWhiteSpace (c :: collapseWs false t))
    with (isWhiteSpace c && allWhiteSpace (collapseWs false t)).
  rewrite Hc. cbn [andb spacedFrom]. rewrite Hc.
  apply (spacedFrom_trimEnd_collapseWs t false).
Qed.

(** What a single-spaced text is to the functions of the source. *)
Lemma spacedFrom_cons afterText c s :
  spacedFrom afterText (c :: s) = true ->
  (isWhiteSpace c = true ->
   afterText = true /\ c = 32
   /\ exists d rest, s = d :: rest /\ isWhiteSpace d = false)
  /\ spacedFrom (negb (isWhiteSpace c)) s = true.
Proof.
  cbn [spacedFrom]. destruct (isWhiteSpace c).
  - intros Hall. apply andb_true_iff in Hall as [Hall Hs].
    apply andb_true_iff in Hall as [Hall Hd].
    apply andb_true_iff in Hall as [Ha Hc]. apply N.eqb_eq in Hc.
    split; [|exact Hs]. intros _.
    destruct s as [|d rest]; [discriminate|].
    repeat split; try assumption.
    exists d, rest. split; [reflexivity|]. apply negb_true_iff, Hd.
  - intros Hs. split; [discriminate|exact Hs].
Qed.

Lemma spacedFrom_collapseWs s :
  forall afterText inRun,
    spacedFrom afterText s = true ->
    (inRun = true ->
     match s with d :: _ => isWhiteSpace d = false | [] => True end) ->
    collapseWs inRun s = s.
Proof.
  induction s as [|c s IH]; intros afterText inRun Hs Hhead; [reflexivity|].
  destruct (spacedFrom_cons afterText c s Hs) as [Hws Hrest].
  cbn [collapseWs]. destruct (isWhiteSpace c) eqn:Hc.
  - destruct (Hws eq_refl) as (_ & -> & d & rest & -> & Hd).
    destruct inRun; [specialize (Hhead eq_refl); discriminate Hhead|].
    f_equal. apply (IH false true Hrest). intros _. exact Hd.
  - f_equal. apply (IH true false Hrest). discriminate.
Qed.

Lemma spacedFrom_trimEnd s :
  forall afterText, spacedFrom afterText s = true -> trimEnd s = s.
Proof.
  induction s as [|c s IH]; intros afterText Hs; [reflexivity|].
  destruct (spacedFrom_cons afterText c s Hs) as [Hws Hrest].
  rewrite trimEnd_cons, (IH _ Hrest).
  change (allWhiteSpace (c :: s)) with (isWhiteSpace c && allWhiteSpace s).
  destruct (isWhiteSpace c) eqn:Hc; [|reflexivity].
  destruct (Hws eq_refl) as (_ & _ & d & rest & -> & Hd).
  change (allWhiteSpace (d :: rest)) with (isWhiteSpace d && allWhiteSpace rest).
  rewrite Hd. reflexivity.
Qed.

Lemma spacedFrom_spaces s :
  forall afterText,
    spacedFrom afterText s = true ->
    Forall (fun c => isWhiteSpace c = true -> c = 32) s.
Proof.
  induction s as [|c s IH]; intros afterText Hs; [constructor|].
  destruct (spacedFrom_cons afterText c s Hs) as [Hws Hrest].
  constructor; [|apply (IH _ Hrest)].
  intros Hc. apply (Hws Hc).
Qed.

Lemma singleSpaced_fixed s :
  singleSpaced s = true ->
  Forall (fun c => isWhiteSpace c = true -> c = 32) s
  /\ trim s = s
  /\ replaceAll matchWhiteSpaceRun (js " ") s = s.
Proof.
  unfold singleSpaced. intros Hs.
  split; [apply (spacedFrom_spaces s false Hs)|]. split.
  - unfold trim.
    assert (Hstart : trimStart s = s).
    { destruct s as [|c s]; [reflexivity|].
      destruct (spacedFrom_cons false c s Hs) as [Hws _].
      cbn [trimStart]. destruct (isWhiteSpace c); [|reflexivity].
      destruct (Hws eq_refl) as [Hfalse _]. discriminate Hfalse. }
    rewrite Hstart. apply (spacedFrom_trimEnd s false Hs).
  - rewrite collapse_is_collapseWs. apply (spacedFrom_collapseWs s false false Hs).
    discriminate.
Qed.

(** A pattern whose matches all start with the code unit [h] leaves a text
    without [h] as it is. *)
Lemma replaceAll_without_head
  (matchAt : jsstring -> option nat) (rep : jsstring) (h : N) s :
  (forall t n, matchAt t = Some n -> exists rest, t = h :: rest) ->
  h ∉ s ->
  replaceAll matchAt rep s = s.
Proof.
  intros Hmatch. unfold replaceAll.
  induction s as [|c s IH]; intros Hs; [reflexivity|].
  apply not_elem_of_cons in Hs as [Hne Hs].
  cbn [replaceGo]. destruct (matchAt (c :: s)) as [n|] eqn:Hm.
  - destruct (Hmatch _ _ Hm) as [rest [= -> _]]. congruence.
  - rewrite (IH Hs). reflexivity.
Qed.

Lemma toLowerAscii_lt c : toLowerAscii 60 = toLowerAscii c -> c = 60.
Proof.
  unfold toLowerAscii. cbn.
  destruct (N.leb_spec 65 c); destruct (N.leb_spec c 90); cbn; lia.
Qed.

Lemma matchElement_head name t n :
  matchElement name t = Some n -> exists rest, t = 60 :: rest.
Proof.
  unfold matchElement. destruct t as [|c rest]; [discriminate|].
  cbn [startsWith]. unfold eqNoCase at 1.
  destruct (N.eqb_spec (toLowerAscii 60) (toLowerAscii c)) as [E|_];
    [|discriminate].
  intros _. exists rest. rewrite (toLowerAscii_lt c E). reflexivity.
Qed.

Lemma matchTag_head t n : matchTag t = Some n -> exists rest, t = 60 :: rest.
Proof.
  unfold matchTag. destruct t as [|c rest]; [discriminate|].
  destruct (N.eq_dec c 60) as [->|Hne]; [exists rest; reflexivity|].
  destruct c as [|p]; [discriminate|].
  do 6 (destruct p as [p|p|]; try discriminate).
  contradiction.
Qed.

Lemma matchLiteral_head c l t n :
  matchLiteral (c :: l) t = Some n -> exists rest, t = c :: rest.
Proof.
  unfold matchLiteral. destruct t as [|x rest]; [discriminate|].
  cbn [startsWith]. unfold eqCase at 1.
  destruct (N.eqb_spec c x) as [->|_]; [|discriminate].
  intros _. exists rest. reflexivity.
Qed.

End TextShape.

(** X18.  The text [extractTextContent] returns is single-spaced, whatever
    the page: every whitespace code unit in it is a space that stands between
    two code units that are not whitespace.  So trimming it, or collapsing
    its whitespace runs once more, gives the same text. *)
Theorem extractTextContent_is_single_spaced (html : jsstring) :
  singleSpaced (extractTextContent html) = true
  /\ Forall (fun c => isWhiteSpace c = true -> c = 32) (extractTextContent html)
  /\ trim (extractTextContent html) = extractTextContent html
  /\ replaceAll matchWhiteSpaceRun (js " ") (extractTextContent html)
     = extractTextContent html.
Proof.
  assert (Hs : singleSpaced (extractTextContent html) = true).
  { unfold extractTextContent. cbv zeta. rewrite collapse_is_collapseWs.
    apply singleSpaced_trim_collapseWs. }
  split; [exact Hs|]. apply singleSpaced_fixed, Hs.
Qed.

(** X19.  A page without [<] and without [&] holds no markup and no
    entity: [extractTextContent] only collapses its whitespace runs and
    trims it. *)
Theorem extractTextContent_of_plain_text (html : jsstring) :
  60 ∉ html -> 38 ∉ html ->
  extractTextContent html = trim (replaceAll matchWhiteSpaceRun (js " ") html).
Proof.
  intros Hlt Hamp. unfold extractTextContent. cbv zeta.
  rewrite (replaceAll_without_head _ _ 60 html (matchElement_head _) Hlt).
  rewrite (replaceAll_without_head _ _ 60 html (matchElement_head _) Hlt).
  rewrite (replaceAll_without_head _ _ 60 html matchTag_head Hlt).
  rewrite (replaceAll_without_head (matchLiteral (js "&nbsp;")) _ 38 html
             (matchLiteral_head 38 (js "nbsp;")) Hamp).
  rewrite (replaceAll_without_head (matchLiteral (js "&amp;")) _ 38 html
             (matchLiteral_head 38 (js "amp;")) Hamp).
  rewrite (replaceAll_without_head (matchLiteral (js "&lt;")) _ 38 html
             (matchLiteral_head 38 (js "lt;")) Hamp).
  rewrite (replaceAll_without_head (matchLiteral (js "&gt;")) _ 38 html
             (matchLiteral_head 38 (js "gt;")) Hamp).
  rewrite (replaceAll_without_head (matchLiteral (js "&quot;")) _ 38 html
             (matchLiteral_head 38 (js "quot;")) Hamp).
  reflexivity.
Qed.

Lemma extractTextContent_plain_text_witness :
  extractTextContent (js "  Sunset   of v1  ") = js "Sunset of v1".
Proof.
  rewrite (extractTextContent_of_plain_text (js "  Sunset   of v1  ")).
  - vm_compute. reflexivity.
  - intros Hin. apply list_elem_of_In in Hin. cbn in Hin.
    repeat (destruct Hin as [Hin|Hin]; [discriminate Hin|]). exact Hin.
  - intros Hin. apply list_elem_of_In in Hin. cbn in Hin.
    repeat (destruct Hin as [Hin|Hin]; [discriminate Hin|]). exact Hin.
Defined.

(** ** The Slack notifier *)

Section Notifier.

Context `{ISOFormat}.

Lemma buildSlackBlocks_run (engineerOutput : EngineerOutput) (w : World) :
  exists blocks footer,
    buildSlackBlocks engineerOutput w = Returns (blocks ++ [footer]) (tickClock w)
    /\ hd_error (blocks ++ [footer])
       = Some (headerBlock
                 (if isUrgent (eo_action engineerOutput)
                  then js "MCP Monitor - URGENT Action Required"
                  else js "MCP Monitor - Changes Detected"))
    /\ sb_type footer = js "context"
    /\ (length (eo_details engineerOutput) + 3 <= length blocks)%nat.
Proof.
  unfold buildSlackBlocks. run.
  eexists _, _. split; [reflexivity|].
  destruct (0 <? length (eo_affectedMcps engineerOutput))%nat;
    destruct (bool_decide (eo_recommendedAction engineerOutput <> js "No action needed"));
    (split; [reflexivity|]); (split; [reflexivity|]);
    rewrite ?length_app, length_map; cbn [length]; lia.
Qed.


(** The run of [notifyChanges] for a decision that asks for action. *)
Lemma notifyChanges_run (webhookUrl : jsstring) (engineerOutput : EngineerOutput)
      (p : Process) :
  eo_action engineerOutput <> none ->
  exists blocks,
    notifyChanges webhookUrl engineerOutput p
    = Done (match webhook p (length (sent p)) with None => true | Some _ => false end)
           (logSend webhookUrl
              (mkSlackMessage (js "MCP Monitor: " ++ eo_summary engineerOutput) blocks)
              (setWorld (tickClock (world p)) p))
    /\ buildSlackBlocks engineerOutput (world p) = Returns blocks (tickClock (world p)).
Proof.
  intros Haction.
  destruct (buildSlackBlocks_run engineerOutput (world p))
    as (blocks & footer & Hblocks & _).
  exists (blocks ++ [footer]). split; [|exact Hblocks].
  unfold notifyChanges.
  destruct (eo_action engineerOutput); [| |contradiction];
    unfold pbind at 1, lift; rewrite Hblocks;
    unfold ptryCatch, pbind, webhookSend, pret; cbn [webhook sent setWorld];
    destruct (webhook p (length (sent p))); reflexivity.
Qed.

End Notifier.

(** X20.  [notifyChanges] never throws.  For the action [none] it returns
    [false] and does nothing: no message is sent and the clock is not read.
    For any other action it hands exactly one message to the webhook, whose
    text is the summary after [MCP Monitor: ] and whose first block is the
    header, urgent exactly for the action [urgent]; it returns [true] when
    the send resolves and [false] when it rejects. *)
Theorem notifyChanges_sends_one_message_unless_none
  `{ISOFormat} (webhookUrl : jsstring) (engineerOutput : EngineerOutput)
  (p : Process) :
  (eo_action engineerOutput = none ->
   notifyChanges webhookUrl engineerOutput p = Done false p)
  /\ (eo_action engineerOutput <> none ->
      exists blocks p',
        notifyChanges webhookUrl engineerOutput p
        = Done (bool_decide (webhook p (length (sent p)) = None)) p'
        /\ sent p'
           = sent p
               ++ [(webhookUrl,
                    mkSlackMessage (js "MCP Monitor: " ++ eo_summary engineerOutput)
                      blocks)]
        /\ hd_error blocks
           = Some (headerBlock
                     (if isUrgent (eo_action engineerOutput)
                      then js "MCP Monitor - URGENT Action Required"
                      else js "MCP Monitor - Changes Detected"))
        /\ world p' = tickClock (world p)
        /\ env_SLACK_WEBHOOK_URL p' = env_SLACK_WEBHOOK_URL p).
Proof.
  split.
  - intros Hnone. unfold notifyChanges. rewrite Hnone. reflexivity.
  - intros Haction.
    destruct (notifyChanges_run webhookUrl engineerOutput p Haction)
      as (blocks & Hrun & Hblocks).
    destruct (buildSlackBlocks_run engineerOutput (world p))
      as (body & footer & Hblocks' & Hhead & _).
    rewrite Hblocks in Hblocks'. injection Hblocks' as ->.
    exists (body ++ [footer]),
      (logSend webhookUrl
         (mkSlackMessage (js "MCP Monitor: " ++ eo_summary engineerOutput)
            (body ++ [footer]))
         (setWorld (tickClock (world p)) p)).
    split; [|split; [reflexivity|split; [exact Hhead|split; reflexivity]]].
    rewrite Hrun. f_equal.
    destruct (webhook p (length (sent p))); reflexivity.
Qed.

Lemma notifyChanges_fallback_witness :
  exists blocks p',
    @notifyChanges isoStub hookUrl (fallbackDecision [sunsetNotice])
      (processOf (configuredWorld noService) (Some hookUrl) hookRejects)
    = Done false p'
    /\ sent p'
       = [(hookUrl,
           mkSlackMessage
             (js "MCP Monitor: 1 API change(s) detected but automated analysis failed. Manual review recommended.")
             blocks)].
Proof.
  destruct (proj2 (@notifyChanges_sends_one_message_unless_none isoStub hookUrl
                     (fallbackDecision [sunsetNotice])
                     (processOf (configuredWorld noService) (Some hookUrl)
                        hookRejects)))
    as (blocks & p' & Hrun & Hsent & _); [discriminate|].
  exists blocks, p'. split; [exact Hrun|exact Hsent].
Defined.

(** X21.  [runNotifyTest] never throws.  Without a webhook URL, or with an
    empty one, it ends the process with code 1 and sends nothing.  With a
    URL it hands exactly one message of three blocks to that webhook, then
    returns when the send resolves and ends the process with code 1 when it
    rejects. *)
Theorem runNotifyTest_sends_one_message_or_exits `{ISOFormat} (p : Process) :
  (env_SLACK_WEBHOOK_URL p = None \/ env_SLACK_WEBHOOK_URL p = Some [] ->
   runNotifyTest p = Exited 1 p)
  /\ (forall webhookUrl,
        env_SLACK_WEBHOOK_URL p = Some webhookUrl -> webhookUrl <> [] ->
        exists message p',
          runNotifyTest p
          = (if bool_decide (webhook p (length (sent p)) = None)
             then Done tt p' else Exited 1 p')
          /\ sent p' = sent p ++ [(webhookUrl, message)]
          /\ msg_text message = js "MCP Monitor Test"
          /\ map sb_type (msg_blocks message)
             = [js "header"; js "section"; js "context"]
          /\ world p' = tickClock (world p)).
Proof.
  split.
  - unfold runNotifyTest. intros [-> | ->]; reflexivity.
  - intros webhookUrl Hurl Hne. unfold runNotifyTest. rewrite Hurl.
    destruct webhookUrl as [|c rest]; [contradiction|]. cbn [truthy].
    unfold sendTestNotification, pbind, ptryCatch, lift, Date_now, webhookSend, pret.
    cbn [webhook sent setWorld world].
    eexists _, _. split; [|split; [|split; [|split]]].
    + destruct (webhook p (length (sent p))); reflexivity.
    + reflexivity.
    + reflexivity.
    + reflexivity.
    + reflexivity.
Qed.

(** ** What the agents leave as it is *)









Section AgentsFrame.

Context `{FromJSON ApiResearcherOutput} `{FromJSON McpResearcherOutput}
        `{FromJSON EngineerOutput}.









(** *** Stage 1 over the changed providers *)




(** *** Stage 3 *)


End AgentsFrame.

(** ** The full check *)





Section FullCheck.

Context `{PathModule} `{FromYAML SourceConfig} `{FromJSON CheckState}
        `{ToJSON CheckState} `{FromJSON ApiResearcherOutput}
        `{FromJSON McpResearcherOutput} `{FromJSON EngineerOutput}
        `{ISOFormat} `{Discovery}.
Variables (repoRoot configDir stateDir : jsstring).

Let configPath := path_join configDir (js "sources.yaml").
Let statePath := path_join stateDir (js "last-check.json").



Lemma pbind_lift_returns {A B : Type} (m : M A) (k : A -> P B) (a : A)
      (w w' : World) (url : option jsstring) (hook : nat -> option Thrown)
      (msgs : list (jsstring * SlackMessage)) :
  m w = Returns a w' ->
  pbind (lift m) k (mkProcess w url hook msgs) = k a (mkProcess w' url hook msgs).
Proof. intros Hrun. unfold pbind, lift. cbn [world]. rewrite Hrun. reflexivity. Qed.




End FullCheck.

(** X22.  [runFullCheck] stops before doing anything when it cannot start:
    without an API key it ends the process with code 1, and when the
    discovery throws, or the configuration file is missing or does not
    parse, it throws.  In each case nothing was fetched, asked, written or
    sent. *)
Theorem runFullCheck_stops_before_any_effect
  `{PathModule} `{FromYAML SourceConfig} `{FromJSON CheckState} `{ToJSON CheckState}
  `{FromJSON ApiResearcherOutput} `{FromJSON McpResearcherOutput}
  `{FromJSON EngineerOutput} `{ISOFormat} `{Discovery}
  (repoRoot configDir stateDir : jsstring) (p : Process) :
  (isConfigured (world p) = false ->
   runFullCheck repoRoot configDir stateDir p = Exited 1 p)
  /\ (forall e,
        isConfigured (world p) = true ->
        discoverMcps repoRoot (world p) = inl e ->
        runFullCheck repoRoot configDir stateDir p = Raised e p)
  /\ (forall mcps,
        isConfigured (world p) = true ->
        discoverMcps repoRoot (world p) = inr mcps ->
        files (world p) !! path_join configDir (js "sources.yaml") = None
        \/ (exists text message,
              files (world p) !! path_join configDir (js "sources.yaml") = Some text
              /\ YAML_parse text = inl message) ->
        exists e, runFullCheck repoRoot configDir stateDir p = Raised e p).
Proof.
  destruct p as [w0 url hook msgs]. cbn [world].
  split; [|split].
  - intros Hconf. unfold runFullCheck. cbn [world]. rewrite Hconf. reflexivity.
  - intros e Hconf Hdisc. unfold runFullCheck. cbn [world]. rewrite Hconf.
    cbn [negb]. unfold pbind at 1, lift, runDiscovery. cbn [world].
    rewrite Hdisc. reflexivity.
  - intros mcps Hconf Hdisc Hbad. unfold runFullCheck. cbn [world]. rewrite Hconf.
    cbn [negb].
    assert (Hd : runDiscovery repoRoot w0 = Returns mcps w0)
      by (unfold runDiscovery; rewrite Hdisc; reflexivity).
    rewrite (pbind_lift_returns _ _ _ _ _ _ _ _ Hd).
    assert (Hthrows : exists e, checkSources configDir stateDir w0 = Throws e w0).
    { unfold checkSources, loadSourceConfig, bind, readFile.
      destruct Hbad as [->|(text & message & -> & ->)]; eexists; reflexivity. }
    destruct Hthrows as [e Hthrows]. exists e.
    unfold pbind at 1, lift. cbn [world]. rewrite Hthrows. reflexivity.
Qed.









(** ** A first run *)




